(** * The node executor of dagu: [internal/scheduler/node.go]

    A shallow embedding of the per-step executor: the [Node] record, its
    [setup] / [Execute] / [teardown] life cycle and [signal].  Methods on
    [*Node] become computations in a small state monad whose state is the
    node together with the part of the operating system the methods talk
    to: the process environment, the clock, the pipes, and the list of
    operations issued so far.  The outcome of every operation (the error
    it ends with, the bytes a run copies from a child) is given by the
    system and is arbitrary.

    Each method runs to completion: the node's mutex is not modelled, and
    neither is anything that happens while a method is under way.  In
    particular [Execute] is described from the moment [cmd.Run] has
    returned: a run that does not return (see [Cmd_Run]) has no
    counterpart here, and the theorems about the data of a run carry the
    conditions under which a run can return ([undisturbed]).  The lines
    written with [log.Printf] and [utils.LogErr] are left out, and so are
    the bytes that reach the log and redirect files; the bytes that reach
    the capture pipe are tracked. *)

From Stdlib Require Import ZArith String Ascii List.
From stdpp Require Import base option list strings gmap.

Local Open Scope string_scope.

(** ** Errors *)

(** Go [error] values.  A nil error is [None : option error]. *)
Inductive error : Type :=
| ErrInvalid                            (* os.ErrInvalid, "invalid argument" *)
| Errno (op : string) (code : nat)      (* a failed system call *)
| ExitError (code : nat).               (* *exec.ExitError *)

#[global] Instance error_eq_dec : EqDecision error.
Proof. solve_decision. Defined.

(** ** Strings *)

Fixpoint take_string (n : nat) (s : string) : string :=
  match n, s with
  | S n', String c s' => String c (take_string n' s')
  | _, _ => EmptyString
  end.

Fixpoint drop_string (n : nat) (s : string) : string :=
  match n, s with
  | S n', String _ s' => drop_string n' s'
  | _, _ => s
  end.

Fixpoint has_char (c : ascii) (s : string) : bool :=
  match s with
  | EmptyString => false
  | String d rest => bool_decide (c = d) || has_char c rest
  end.

(** ** Time *)

(** A [time.Time] reading, by its civil fields (Go's [int]s). *)
Record Time := {
  t_year : Z;
  t_month : Z;
  t_day : Z;
  t_hour : Z;
  t_minute : Z;
  t_second : Z;
  t_nanosecond : Z
}.

(** The zero [time.Time{}]: January 1, year 1, 00:00:00 UTC. *)
Definition zero_time : Time :=
  {| t_year := 1; t_month := 1; t_day := 1; t_hour := 0; t_minute := 0;
     t_second := 0; t_nanosecond := 0 |}.

Definition digit (d : Z) : ascii := ascii_of_nat (48 + Z.to_nat (d mod 10)).

(** The [width] low-order decimal digits of [x], most significant first. *)
Fixpoint fixed_digits (width : nat) (x : Z) : string :=
  match width with
  | 0 => EmptyString
  | S k => fixed_digits k (x / 10) ++ String (digit x) EmptyString
  end.

(** Number of decimal digits of [x >= 0] (at least one). *)
Fixpoint ndigits_fuel (fuel : nat) (x : Z) : nat :=
  match fuel with
  | 0 => 1
  | S f => if (x <? 10)%Z then 1 else S (ndigits_fuel f (x / 10))
  end.

Definition ndigits (x : Z) : nat := ndigits_fuel (Z.to_nat (Z.log2 x)) x.

(** [time.appendInt]: decimal form of [x], zero-padded to [width]. *)
Definition appendInt (x : Z) (width : nat) : string :=
  let u := Z.abs x in
  (if (x <? 0)%Z then "-" else "") ++ fixed_digits (Nat.max width (ndigits u)) u.

(** The layout chunks [time.nextStdChunk] recognises, as far as the
    executor's layout uses them. *)
Inductive chunk : Type :=
| Lit (s : string)
| stdLongYear            (* "2006" *)
| stdZeroMonth           (* "01" *)
| stdZeroDay             (* "02" *)
| stdHour                (* "15" *)
| stdZeroMinute          (* "04" *)
| stdZeroSecond          (* "05" *)
| stdFracSecond0 (n : nat). (* ".000": a dot and n digits, truncated *)

Definition format_chunk (t : Time) (c : chunk) : string :=
  match c with
  | Lit s => s
  | stdLongYear => appendInt (t_year t) 4
  | stdZeroMonth => appendInt (t_month t) 2
  | stdZeroDay => appendInt (t_day t) 2
  | stdHour => appendInt (t_hour t) 2
  | stdZeroMinute => appendInt (t_minute t) 2
  | stdZeroSecond => appendInt (t_second t) 2
  | stdFracSecond0 n => "." ++ take_string n (fixed_digits 9 (t_nanosecond t))
  end.

Definition Format (t : Time) (layout : list chunk) : string :=
  fold_right (fun c acc => format_chunk t c ++ acc) "" layout.

(** The layout ["20060102.15:04:05.000"] of [setup], chunked. *)
Definition log_layout : list chunk :=
  [stdLongYear; stdZeroMonth; stdZeroDay; Lit "."; stdHour; Lit ":";
   stdZeroMinute; Lit ":"; stdZeroSecond; stdFracSecond0 3].

(** ** Operating-system objects *)

(** An [*os.File]: a file of the file system, or one end of a pipe. *)
Inductive File : Type :=
| NamedFile (name : string)
| PipeReader (p : nat)
| PipeWriter (p : nat).

#[global] Instance File_eq_dec : EqDecision File.
Proof. solve_decision. Defined.

(** The Name method of an os.File. *)
Definition File_Name (f : File) : string :=
  match f with
  | NamedFile name => name
  | PipeReader _ => "|0"
  | PipeWriter _ => "|1"
  end.

(** A [*bufio.Writer] wrapping a file. *)
Record Writer := NewWriter { wr_file : File }.

#[global] Instance Writer_eq_dec : EqDecision Writer.
Proof. solve_decision. Defined.

(** What a command's [Stdout] / [Stderr] is wired to.  An [io.MultiWriter]
    is the list of its parts; a [*bufio.Writer] part may be a nil pointer. *)
Inductive Sink : Type :=
| ToFile (f : File)
| ToWriter (w : option Writer).

#[global] Instance Sink_eq_dec : EqDecision Sink.
Proof. solve_decision. Defined.

Definition os_Stdout : File := NamedFile "/dev/stdout".

(** [syscall.Signal] *)
Definition Signal := Z.
Definition SIGKILL : Signal := 9%Z.
Definition SIGTERM : Signal := 15%Z.

Record Process := { Pid : Z }.

#[global] Instance Process_eq_dec : EqDecision Process.
Proof. solve_decision. Defined.

(** An [*exec.Cmd], with the fields [Execute] fills in.  [Path], which
    [exec.Command] looks up in the directories of [$PATH] when the name
    has no separator, is not part of the model. *)
Record Cmd := {
  cmd_Args : list string;          (* argv, the name given first *)
  cmd_Dir : string;
  cmd_Env : list string;
  cmd_Setpgid : bool;              (* SysProcAttr.Setpgid *)
  cmd_Pgid : Z;                    (* SysProcAttr.Pgid *)
  cmd_Stdout : list Sink;
  cmd_Stderr : list Sink;
  cmd_Process : option Process     (* nil until the child has started *)
}.

#[global] Instance Cmd_eq_dec : EqDecision Cmd.
Proof. solve_decision. Defined.

(** What a run of a command that has returned did: the pid the child got
    ([None] when it could not be started), and the bytes of the child's
    stdout and stderr that the run copied to every writer of [cmd.Stdout]
    and of [cmd.Stderr].  That is all the child wrote when the run
    returned nil; when a writer failed, the copy stopped there, and these
    are the bytes that had reached all the writers before. *)
Record Child := {
  c_stdout : string;
  c_stderr : string;
  c_pid : option Z
}.

(** Operations the executor asks of the operating system. *)
Inductive Op : Type :=
| OpOpen (path : string)                  (* utils.OpenOrCreateFile *)
| OpCreateTemp (dir pattern : string)     (* os.CreateTemp *)
| OpWriteString (f : File) (data : string)
| OpFlush (w : Writer)                    (* Flush of a bufio.Writer *)
| OpSync (f : File)
| OpClose (f : File)
| OpRemove (name : string)                (* os.Remove *)
| OpPipe                                  (* os.Pipe *)
| OpRun (c : Cmd)                         (* Run of an exec.Cmd *)
| OpKill (pid : Z) (sig : Signal).        (* syscall.Kill *)

#[global] Instance Op_eq_dec : EqDecision Op.
Proof. solve_decision. Defined.

(** The operating system as the executor sees it.  [w_fail], [w_temp] and
    [w_child] are the answers the system gives; they are arbitrary. *)
Record World := {
  w_env : gmap string string;        (* the process environment *)
  w_now : Time;                      (* the reading of time.Now *)
  w_pipes : gmap nat string;         (* bytes waiting in each pipe *)
  w_next : nat;                      (* next unused pipe number *)
  w_trace : list Op;                 (* operations issued, oldest first *)
  w_fail : Op -> option error;       (* the error an operation ends with *)
  w_temp : string -> string -> string; (* the name os.CreateTemp picks *)
  w_child : Cmd -> Child             (* the behaviour of a spawned command *)
}.

(** ** Steps and nodes *)

(** Modelled from the spec: [config.Step] is declared in package [config],
    not in [node.go]; these are the fields of a step (section 3 of the
    specification) that the executor reads or writes. *)
Record Step := {
  Name : string;
  Dir : string;
  Command : string;
  Args : list string;
  CmdWithArgs : string;
  Script : string;
  Stdout : string;               (* stdout-redirect path, or empty *)
  Output : string;               (* capture-output variable, or empty *)
  Variables : list string
}.

Inductive NodeStatus : Type :=
| NodeStatus_None
| NodeStatus_Running
| NodeStatus_Error
| NodeStatus_Cancel
| NodeStatus_Success
| NodeStatus_Skipped.

#[global] Instance NodeStatus_eq_dec : EqDecision NodeStatus.
Proof. solve_decision. Defined.

Record NodeState := {
  Status : NodeStatus;
  Log : string;
  StartedAt : Time;
  FinishedAt : Time;
  RetryCount : nat;
  RetriedAt : Time;
  DoneCount : nat;
  Error : option error
}.

(** The cancel function of a [context.WithCancel]. *)
Inductive CancelFunc : Type := cancel_of_background.

Record Node := {
  step : Step;
  state : NodeState;
  node_id : nat;
  cmd : option Cmd;
  cancelFunc : option CancelFunc;
  logFile : option File;
  logWriter : option Writer;
  stdoutFile : option File;
  stdoutWriter : option Writer;
  outputWriter : option File;
  outputReader : option File;
  scriptFile : option File;
  done : bool
}.

(** Field updates. *)
Definition with_state (f : NodeState -> NodeState) (n : Node) : Node :=
  {| step := step n; state := f (state n); node_id := node_id n; cmd := cmd n;
     cancelFunc := cancelFunc n; logFile := logFile n;
     logWriter := logWriter n; stdoutFile := stdoutFile n;
     stdoutWriter := stdoutWriter n; outputWriter := outputWriter n;
     outputReader := outputReader n; scriptFile := scriptFile n;
     done := done n |}.

Definition set_Status (s : NodeStatus) : Node -> Node :=
  with_state (fun st =>
    {| Status := s; Log := Log st; StartedAt := StartedAt st;
       FinishedAt := FinishedAt st; RetryCount := RetryCount st;
       RetriedAt := RetriedAt st; DoneCount := DoneCount st;
       Error := Error st |}).

Definition set_Log (l : string) : Node -> Node :=
  with_state (fun st =>
    {| Status := Status st; Log := l; StartedAt := StartedAt st;
       FinishedAt := FinishedAt st; RetryCount := RetryCount st;
       RetriedAt := RetriedAt st; DoneCount := DoneCount st;
       Error := Error st |}).

Definition set_StartedAt (t : Time) : Node -> Node :=
  with_state (fun st =>
    {| Status := Status st; Log := Log st; StartedAt := t;
       FinishedAt := FinishedAt st; RetryCount := RetryCount st;
       RetriedAt := RetriedAt st; DoneCount := DoneCount st;
       Error := Error st |}).

Definition set_Error (e : option error) : Node -> Node :=
  with_state (fun st =>
    {| Status := Status st; Log := Log st; StartedAt := StartedAt st;
       FinishedAt := FinishedAt st; RetryCount := RetryCount st;
       RetriedAt := RetriedAt st; DoneCount := DoneCount st;
       Error := e |}).

Definition set_Command (c : string) (a : list string) (n : Node) : Node :=
  {| step := {| Name := Name (step n); Dir := Dir (step n); Command := c;
                Args := a; CmdWithArgs := CmdWithArgs (step n);
                Script := Script (step n); Stdout := Stdout (step n);
                Output := Output (step n); Variables := Variables (step n) |};
     state := state n; node_id := node_id n; cmd := cmd n;
     cancelFunc := cancelFunc n; logFile := logFile n;
     logWriter := logWriter n; stdoutFile := stdoutFile n;
     stdoutWriter := stdoutWriter n; outputWriter := outputWriter n;
     outputReader := outputReader n; scriptFile := scriptFile n;
     done := done n |}.

Definition set_cmd (c : option Cmd) (n : Node) : Node :=
  {| step := step n; state := state n; node_id := node_id n; cmd := c;
     cancelFunc := cancelFunc n; logFile := logFile n;
     logWriter := logWriter n; stdoutFile := stdoutFile n;
     stdoutWriter := stdoutWriter n; outputWriter := outputWriter n;
     outputReader := outputReader n; scriptFile := scriptFile n;
     done := done n |}.

Definition set_cancelFunc (c : option CancelFunc) (n : Node) : Node :=
  {| step := step n; state := state n; node_id := node_id n; cmd := cmd n;
     cancelFunc := c; logFile := logFile n;
     logWriter := logWriter n; stdoutFile := stdoutFile n;
     stdoutWriter := stdoutWriter n; outputWriter := outputWriter n;
     outputReader := outputReader n; scriptFile := scriptFile n;
     done := done n |}.

Definition set_log (f : option File) (w : option Writer) (n : Node) : Node :=
  {| step := step n; state := state n; node_id := node_id n; cmd := cmd n;
     cancelFunc := cancelFunc n; logFile := f;
     logWriter := w; stdoutFile := stdoutFile n;
     stdoutWriter := stdoutWriter n; outputWriter := outputWriter n;
     outputReader := outputReader n; scriptFile := scriptFile n;
     done := done n |}.

Definition set_stdout (f : option File) (w : option Writer) (n : Node) : Node :=
  {| step := step n; state := state n; node_id := node_id n; cmd := cmd n;
     cancelFunc := cancelFunc n; logFile := logFile n;
     logWriter := logWriter n; stdoutFile := f;
     stdoutWriter := w; outputWriter := outputWriter n;
     outputReader := outputReader n; scriptFile := scriptFile n;
     done := done n |}.

Definition set_output (r w : option File) (n : Node) : Node :=
  {| step := step n; state := state n; node_id := node_id n; cmd := cmd n;
     cancelFunc := cancelFunc n; logFile := logFile n;
     logWriter := logWriter n; stdoutFile := stdoutFile n;
     stdoutWriter := stdoutWriter n; outputWriter := w;
     outputReader := r; scriptFile := scriptFile n;
     done := done n |}.

Definition set_scriptFile (f : option File) (n : Node) : Node :=
  {| step := step n; state := state n; node_id := node_id n; cmd := cmd n;
     cancelFunc := cancelFunc n; logFile := logFile n;
     logWriter := logWriter n; stdoutFile := stdoutFile n;
     stdoutWriter := stdoutWriter n; outputWriter := outputWriter n;
     outputReader := outputReader n; scriptFile := f;
     done := done n |}.

Definition set_done (b : bool) (n : Node) : Node :=
  {| step := step n; state := state n; node_id := node_id n; cmd := cmd n;
     cancelFunc := cancelFunc n; logFile := logFile n;
     logWriter := logWriter n; stdoutFile := stdoutFile n;
     stdoutWriter := stdoutWriter n; outputWriter := outputWriter n;
     outputReader := outputReader n; scriptFile := scriptFile n;
     done := b |}.

(** ** The monad of node methods *)

Record Machine := { node : Node; world : World }.

(** A method either returns, or panics (a nil dereference). *)
Inductive Res (A : Type) : Type :=
| Ok (a : A) (m : Machine)
| Panic (m : Machine).

Arguments Ok {A} a m.
Arguments Panic {A} m.

Definition Go (A : Type) : Type := Machine -> Res A.

#[global] Instance Go_ret : MRet Go := fun A a m => Ok a m.

#[global] Instance Go_bind : MBind Go := fun A B f c m =>
  match c m with
  | Ok a m' => f a m'
  | Panic m' => Panic m'
  end.

Definition get_node : Go Node := fun m => Ok (node m) m.

Definition modify_node (f : Node -> Node) : Go unit := fun m =>
  Ok tt {| node := f (node m); world := world m |}.

Definition get_world : Go World := fun m => Ok (world m) m.

Definition modify_world (f : World -> World) : Go unit := fun m =>
  Ok tt {| node := node m; world := f (world m) |}.

Definition panic {A : Type} : Go A := fun m => Panic m.

(** Issue an operation: it is appended to the trace, and the system's
    answer is returned. *)
Definition record_op (o : Op) (w : World) : World :=
  {| w_env := w_env w; w_now := w_now w; w_pipes := w_pipes w;
     w_next := w_next w; w_trace := (w_trace w ++ [o])%list; w_fail := w_fail w;
     w_temp := w_temp w; w_child := w_child w |}.

Definition issue (o : Op) : Go (option error) :=
  w ← get_world;
  modify_world (record_op o);;
  mret (w_fail w o).

Definition set_pipes (p : gmap nat string) (next : nat) (w : World) : World :=
  {| w_env := w_env w; w_now := w_now w; w_pipes := p;
     w_next := next; w_trace := w_trace w; w_fail := w_fail w;
     w_temp := w_temp w; w_child := w_child w |}.

Definition set_env (e : gmap string string) (w : World) : World :=
  {| w_env := e; w_now := w_now w; w_pipes := w_pipes w;
     w_next := w_next w; w_trace := w_trace w; w_fail := w_fail w;
     w_temp := w_temp w; w_child := w_child w |}.

(** ** The operating system and the Go library *)

Definition time_Now : Go Time :=
  w ← get_world; mret (w_now w).

(** Modelled from the spec: [utils.OpenOrCreateFile] is defined in package
    [utils], not in [node.go]; it "opens/creates" the file at the path and
    yields the handle, or the error of the attempt. *)
Definition OpenOrCreateFile (path : string) : Go (option File * option error) :=
  err ← issue (OpOpen path);
  match err with
  | Some e => mret (None, Some e)
  | None => mret (Some (NamedFile path), None)
  end.

Definition os_CreateTemp (dir pattern : string) : Go (option File * option error) :=
  w ← get_world;
  err ← issue (OpCreateTemp dir pattern);
  match err with
  | Some e => mret (None, Some e)
  | None => mret (Some (NamedFile (w_temp w dir pattern)), None)
  end.

(** Methods of [*os.File] check their receiver: on a nil file they return
    [os.ErrInvalid] and do nothing. *)
Definition File_WriteString (f : option File) (s : string) : Go (option error) :=
  match f with
  | None => mret (Some ErrInvalid)
  | Some f => issue (OpWriteString f s)
  end.

Definition File_Sync (f : option File) : Go (option error) :=
  match f with
  | None => mret (Some ErrInvalid)
  | Some f => issue (OpSync f)
  end.

Definition File_Close (f : option File) : Go (option error) :=
  match f with
  | None => mret (Some ErrInvalid)
  | Some f => issue (OpClose f)
  end.

Definition Writer_Flush (w : Writer) : Go (option error) := issue (OpFlush w).

Definition os_Remove (name : string) : Go (option error) := issue (OpRemove name).

Definition syscall_Kill (pid : Z) (sig : Signal) : Go (option error) :=
  issue (OpKill pid sig).

(** [os.Pipe]: a fresh, empty pipe and its two ends. *)
Definition os_Pipe : Go (option File * option File * option error) :=
  err ← issue OpPipe;
  match err with
  | Some e => mret (None, None, Some e)
  | None =>
      w ← get_world;
      let p := w_next w in
      modify_world (set_pipes (<[p := ""]> (w_pipes w)) (S p));;
      mret (Some (PipeReader p), Some (PipeWriter p), None)
  end.

(** The bytes [data] a run has copied to a sink list reach every pipe
    among the sinks.  The contents of log and redirect files are not
    tracked.  A run in which bytes are copied to a nil writer does not
    return: the process panics in [io.MultiWriter]; such a run is ruled
    out by [undisturbed], not here. *)
Fixpoint deliver (sinks : list Sink) (data : string)
    (pipes : gmap nat string) : gmap nat string :=
  match sinks with
  | [] => pipes
  | ToFile (PipeWriter p) :: rest =>
      deliver rest data
        (match pipes !! p with
         | Some old => <[p := old ++ data]> pipes
         | None => pipes
         end)
  | _ :: rest => deliver rest data pipes
  end.

(** The bytes copied from a child; none when it could not be started. *)
Definition stdout_written (ch : Child) : string :=
  match c_pid ch with Some _ => c_stdout ch | None => "" end.

Definition stderr_written (ch : Child) : string :=
  match c_pid ch with Some _ => c_stderr ch | None => "" end.

Definition with_Process (c : Cmd) (p : option Process) : Cmd :=
  {| cmd_Args := cmd_Args c; cmd_Dir := cmd_Dir c;
     cmd_Env := cmd_Env c; cmd_Setpgid := cmd_Setpgid c;
     cmd_Pgid := cmd_Pgid c; cmd_Stdout := cmd_Stdout c;
     cmd_Stderr := cmd_Stderr c; cmd_Process := p |}.

(** [n.cmd.Run()], for a run that returns: it has started the child,
    copied what the child wrote to the sinks, waited for the child, and
    returns the error of the run (a failed start, the exit error, or the
    error of a writer).  The command is the one the node points to, so the
    started process shows in [n.cmd].

    [Execute] reads the capture pipe only after [cmd.Run] has returned, so
    a run that copies more bytes to the pipe than the pipe holds
    ([pipe_capacity]) blocks for ever; and a run that copies bytes to a
    nil writer ends the process in a panic.  These runs do not return and
    the model has no outcome for them: the answer of the system, [w_child],
    stands for a run that has returned. *)
Definition Cmd_Run : Go (option error) :=
  n ← get_node;
  match cmd n with
  | None => panic
  | Some c =>
      w ← get_world;
      err ← issue (OpRun c);
      let ch := w_child w c in
      modify_world (fun w' =>
        set_pipes
          (deliver (cmd_Stderr c) (stderr_written ch)
             (deliver (cmd_Stdout c) (stdout_written ch) (w_pipes w')))
          (w_next w') w');;
      modify_node (set_cmd (Some (with_Process c (Build_Process <$> c_pid ch))));;
      mret err
  end.

(** [io.Copy(&buf, r)] on the read end of a pipe whose write end is closed:
    everything waiting in the pipe is taken out. *)
Definition read_all (r : option File) : Go string :=
  match r with
  | Some (PipeReader p) =>
      w ← get_world;
      match w_pipes w !! p with
      | Some data =>
          modify_world (set_pipes (<[p := ""]> (w_pipes w)) (w_next w));;
          mret data
      | None => mret ""
      end
  | _ => mret ""
  end.

(** [os.Getenv]: unset names read as the empty string. *)
Definition Getenv (env : gmap string string) (k : string) : string :=
  default "" (env !! k).

(** [os.Setenv]: an empty name, a name with ['='] or a NUL byte, and a
    value with a NUL byte are refused with [EINVAL], and nothing is
    stored. *)
Definition EINVAL : nat := 22.

Definition setenv_accepts (k v : string) : bool :=
  negb (bool_decide (k = ""))
  && negb (has_char "="%char k) && negb (has_char "000"%char k)
  && negb (has_char "000"%char v).

Arguments setenv_accepts : simpl never.

Definition os_Setenv (k v : string) : Go (option error) :=
  if setenv_accepts k v then
    w ← get_world;
    modify_world (set_env (<[k := v]> (w_env w)));;
    mret None
  else mret (Some (Errno "setenv" EINVAL)).

(** *** [os.Expand] *)

Definition isShellSpecialVar (c : ascii) : bool :=
  bool_decide (c ∈ ["*"; "#"; "$"; "@"; "!"; "?"; "-"; "0"; "1"; "2"; "3";
                    "4"; "5"; "6"; "7"; "8"; "9"]%char).

Definition isAlphaNum (c : ascii) : bool :=
  let k := nat_of_ascii c in
  bool_decide (c = "_"%char)
  || (Nat.leb 48 k && Nat.leb k 57)
  || (Nat.leb 97 k && Nat.leb k 122)
  || (Nat.leb 65 k && Nat.leb k 90).

(** Index of the first ['}'] of [s], counting from [i]. *)
Fixpoint index_close (s : string) (i : nat) : option nat :=
  match s with
  | EmptyString => None
  | String c s' => if bool_decide (c = "}"%char) then Some i
                   else index_close s' (S i)
  end.

Fixpoint alnum_prefix (s : string) : string :=
  match s with
  | String c s' => if isAlphaNum c then String c (alnum_prefix s') else ""
  | EmptyString => ""
  end.

(** [os.getShellName]: the name after a ['$'] and the number of bytes it
    takes up; called on a non-empty string. *)
Definition getShellName (s : string) : string * nat :=
  match s with
  | EmptyString => ("", 0)
  | String "{"%char rest =>
      if match rest with
         | String c (String "}"%char _) => isShellSpecialVar c
         | _ => false
         end
      then (take_string 1 rest, 3)
      else
        match index_close rest 1 with
        | Some i => if Nat.eqb i 1 then ("", 2)
                    else (take_string (i - 1) rest, S i)
        | None => ("", 1)
        end
  | String c rest =>
      if isShellSpecialVar c then (String c "", 1)
      else let name := alnum_prefix s in (name, String.length name)
  end.

(** [os.Expand]: the fuel bounds the number of bytes still to scan. *)
Fixpoint Expand_fuel (fuel : nat) (s : string) (mapping : string -> string) : string :=
  match fuel with
  | 0 => s
  | S fuel' =>
      match s with
      | EmptyString => ""
      | String c rest =>
          if bool_decide (c = "$"%char) && negb (bool_decide (rest = "")) then
            let '(name, w) := getShellName rest in
            (if bool_decide (name = "") then
               if Nat.ltb 0 w then "" else "$"
             else mapping name)
            ++ Expand_fuel fuel' (drop_string w rest) mapping
          else String c (Expand_fuel fuel' rest mapping)
      end
  end.

Definition Expand (s : string) (mapping : string -> string) : string :=
  Expand_fuel (String.length s) s mapping.

Definition ExpandEnv (env : gmap string string) (s : string) : string :=
  Expand s (Getenv env).

(** [fmt.Sprintf("%s.%s.%s.log", a, b, c)] *)
Definition Sprintf_log (a b c : string) : string :=
  a ++ "." ++ b ++ "." ++ c ++ ".log".

(** ** Helpers of package [utils] *)

(** Modelled from the spec: [utils.ValidFilename] is defined in package
    [utils], not in [node.go].  "Step-name sanitization replaces any
    non-filename-safe character with [_]": every byte that is not
    filename-safe is replaced by the replacement string, every other byte
    is kept. *)
Fixpoint ValidFilename_with (safe : ascii -> bool) (str replacement : string) : string :=
  match str with
  | EmptyString => EmptyString
  | String c rest =>
      (if safe c then String c EmptyString else replacement)
      ++ ValidFilename_with safe rest replacement
  end.

(** Modelled from the spec: [utils.TruncString] is defined in package
    [utils], not in [node.go].  The log name carries [req_id[:8]]: the
    string cut after [max] bytes. *)
Definition TruncString (val : string) (max : nat) : string :=
  take_string max val.

(** A split into words at the blanks, the first word being the command:
    the splitter of the examples.  [utils.SplitCommand] itself is not in
    [node.go], and the executor below is stated for any splitter. *)
Fixpoint words_from (cur : string) (s : string) : list string :=
  match s with
  | EmptyString => [cur]
  | String c rest =>
      if bool_decide (c = " "%char) then cur :: words_from "" rest
      else words_from (cur ++ String c "") rest
  end.

Definition SplitCommand_words (s : string) : string * list string :=
  match words_from "" s with
  | [] => ("", [])
  | c :: args => (c, args)
  end.

(** A plain path join and absoluteness test, used in the examples. *)
Definition Join_plain (dir file : string) : string :=
  if bool_decide (dir = "") then file else dir ++ "/" ++ file.

Definition IsAbs_plain (path : string) : bool :=
  match path with
  | String "/"%char _ => true
  | _ => false
  end.

Definition is_space (c : ascii) : bool :=
  bool_decide (c ∈ [" "; "009"; "010"; "011"; "012"; "013"]%char).

Fixpoint trim_left (s : string) : string :=
  match s with
  | String c rest => if is_space c then trim_left rest else s
  | EmptyString => EmptyString
  end.

Fixpoint trim_right (s : string) : string :=
  match s with
  | EmptyString => EmptyString
  | String c rest =>
      match trim_right rest with
      | EmptyString => if is_space c then EmptyString else String c EmptyString
      | r => String c r
      end
  end.

(** Trimming of ASCII white space, used in the examples. *)
Definition TrimSpace_ascii (s : string) : string := trim_right (trim_left s).

(** ** The methods of [*Node] *)

Section Executor.

(** Library functions the executor calls, taken as they are. *)
Variable TrimSpace : string -> string.               (* strings.TrimSpace *)
Variable Join : string -> string -> string.          (* filepath.Join *)
Variable IsAbs : string -> bool.                     (* filepath.IsAbs *)
Variable SplitCommand : string -> string * list string. (* utils.SplitCommand *)
Variable filename_safe : ascii -> bool.  (* bytes utils.ValidFilename keeps *)

Definition ValidFilename : string -> string -> string :=
  ValidFilename_with filename_safe.

(** [exec.CommandContext(ctx, name, arg...)] *)
Definition CommandContext (name : string) (arg : list string) : Cmd :=
  {| cmd_Args := name :: arg; cmd_Dir := "";
     cmd_Env := []; cmd_Setpgid := false; cmd_Pgid := 0;
     cmd_Stdout := []; cmd_Stderr := []; cmd_Process := None |}.

(** Assignment of [cmd.Stdout] and [cmd.Stderr]. *)
Definition wire (c : Cmd) (out err : list Sink) : Cmd :=
  {| cmd_Args := cmd_Args c; cmd_Dir := cmd_Dir c;
     cmd_Env := cmd_Env c; cmd_Setpgid := cmd_Setpgid c;
     cmd_Pgid := cmd_Pgid c; cmd_Stdout := out; cmd_Stderr := err;
     cmd_Process := cmd_Process c |}.

(** An [*os.File] used as an [io.Writer]. *)
Definition file_sink (f : option File) : list Sink :=
  match f with Some f => [ToFile f] | None => [] end.

(** [Execute] runs the command synchronously and returns error if any. *)
Definition Execute : Go (option error) :=
  modify_node (set_cancelFunc (Some cancel_of_background));;
  n ← get_node;
  w ← get_world;
  (if bool_decide (CmdWithArgs (step n) ≠ "") then
     let '(c, a) := SplitCommand (ExpandEnv (w_env w) (CmdWithArgs (step n))) in
     modify_node (set_Command c a)
   else mret tt);;
  n ← get_node;
  let args :=
    match scriptFile n with
    | Some f => (([] ++ Args (step n)) ++ [File_Name f])%list
    | None => Args (step n)
    end in
  let c := CommandContext (Command (step n)) args in
  let c :=
    {| cmd_Args := cmd_Args c;
       cmd_Dir := Dir (step n);
       cmd_Env := (cmd_Env c ++ Variables (step n))%list;
       cmd_Setpgid := true; cmd_Pgid := 0;
       cmd_Stdout := [ToFile os_Stdout]; cmd_Stderr := [ToFile os_Stdout];
       cmd_Process := cmd_Process c |} in
  let c :=
    match logWriter n with
    | Some _ => wire c [ToWriter (logWriter n)] [ToWriter (logWriter n)]
    | None => c
    end in
  let c :=
    match stdoutWriter n with
    | Some _ => wire c [ToWriter (logWriter n); ToWriter (stdoutWriter n)]
                  (cmd_Stderr c)
    | None => c
    end in
  modify_node (set_cmd (Some c));;
  pipe_err ←
    (if bool_decide (Output (step n) ≠ "") then
       '(r, wr, err) ← os_Pipe;
       modify_node (set_output r wr);;
       match err with
       | Some e => mret (Some e)
       | None =>
           modify_node (set_cmd
             (Some (wire c (cmd_Stdout c ++ file_sink wr)%list (cmd_Stderr c))));;
           mret None
       end
     else mret None);
  match pipe_err with
  | Some e => mret (Some e)
  | None =>
      err ← Cmd_Run;
      modify_node (set_Error err);;
      n ← get_node;
      (if bool_decide (outputReader n ≠ None)
          && bool_decide (Output (step n) ≠ "") then
         _ ← File_Close (outputWriter n);
         ret ← read_all (outputReader n);
         _ ← os_Setenv (Output (step n)) (TrimSpace ret);
         mret tt
       else mret tt);;
      n ← get_node;
      mret (Error (state n))
  end.

Definition signal (sig : Signal) : Go unit :=
  n ← get_node;
  let status := Status (state n) in
  (if bool_decide (status = NodeStatus_Running) then
     match cmd n with
     | Some c =>
         match cmd_Process c with
         | Some p => _ ← syscall_Kill (- Pid p) sig; mret tt
         | None => panic
         end
     | None => mret tt
     end
   else mret tt);;
  (if bool_decide (status = NodeStatus_Running) then
     modify_node (set_Status NodeStatus_Cancel)
   else mret tt).

Definition setupLog : Go (option error) :=
  n ← get_node;
  if bool_decide (Log (state n) = "") then mret None
  else
    '(f, err) ← OpenOrCreateFile (Log (state n));
    modify_node (set_log f (logWriter n));;
    match err with
    | Some e => modify_node (set_Error (Some e));; mret (Some e)
    | None =>
        modify_node (set_log f (NewWriter <$> f));;
        mret None
    end.

Definition setupStdout : Go (option error) :=
  n ← get_node;
  if bool_decide (Stdout (step n) ≠ "") then
    let f := Stdout (step n) in
    let f := if negb (IsAbs f) then Join (Dir (step n)) f else f in
    '(file, err) ← OpenOrCreateFile f;
    modify_node (set_stdout file (stdoutWriter n));;
    match err with
    | Some e => modify_node (set_Error (Some e));; mret (Some e)
    | None =>
        modify_node (set_stdout file (NewWriter <$> file));;
        mret None
    end
  else mret None.

Definition setupScript : Go (option error) :=
  n ← get_node;
  if bool_decide (Script (step n) ≠ "") then
    '(file, _) ← os_CreateTemp (Dir (step n)) "dagu_script-";
    modify_node (set_scriptFile file);;
    err ← File_WriteString file (Script (step n));
    match err with
    | Some e => mret (Some e)
    | None =>
        err ← File_Sync file;
        n ← get_node;
        _ ← File_Close (scriptFile n);
        mret err
    end
  else mret None.

(** The loop of [setup] over its sub-steps. *)
Fixpoint run_setup (fns : list (Go (option error))) : Go (option error) :=
  match fns with
  | [] => mret None
  | fn :: rest =>
      err ← fn;
      match err with
      | Some e => modify_node (set_Error (Some e));; mret (Some e)
      | None => run_setup rest
      end
  end.

Definition setup (logDir requestId : string) : Go (option error) :=
  now ← time_Now;
  modify_node (set_StartedAt now);;
  n ← get_node;
  modify_node (set_Log (Join logDir
    (Sprintf_log (ValidFilename (Name (step n)) "_")
                 (Format (StartedAt (state n)) log_layout)
                 (TruncString requestId 8))));;
  run_setup [setupLog; setupStdout; setupScript].

(** The two loops of [teardown]. *)
Fixpoint flush_writers (ws : list (option Writer)) (lastErr : option error)
    : Go (option error) :=
  match ws with
  | [] => mret lastErr
  | Some w :: rest =>
      err ← Writer_Flush w;
      flush_writers rest (match err with Some e => Some e | None => lastErr end)
  | None :: rest => flush_writers rest lastErr
  end.

Fixpoint sync_files (fs : list (option File)) (lastErr : option error)
    : Go (option error) :=
  match fs with
  | [] => mret lastErr
  | Some f :: rest =>
      err ← File_Sync (Some f);
      _ ← File_Close (Some f);
      sync_files rest (match err with Some e => Some e | None => lastErr end)
  | None :: rest => sync_files rest lastErr
  end.

Definition teardown : Go (option error) :=
  n ← get_node;
  if done n then mret None
  else
    modify_node (set_done true);;
    lastErr ← flush_writers [logWriter n; stdoutWriter n] None;
    lastErr ← sync_files [logFile n; stdoutFile n] lastErr;
    match scriptFile n with
    | Some f => _ ← os_Remove (File_Name f); mret tt
    | None => mret tt
    end;;
    match lastErr with
    | Some e => modify_node (set_Error (Some e))
    | None => mret tt
    end;;
    mret lastErr.

End Executor.

(** ** Specifications *)

(** *** teardown *)

(** The results of the flushes and syncs of [teardown], in the order it
    performs them: log writer, stdout writer, log file, stdout file.  A nil
    handle is skipped and contributes no error. *)
Definition teardown_results (m : Machine) : list (option error) :=
  let n := node m in
  let fail := w_fail (world m) in
  [ logWriter n ≫= (fun w => fail (OpFlush w));
    stdoutWriter n ≫= (fun w => fail (OpFlush w));
    logFile n ≫= (fun f => fail (OpSync f));
    stdoutFile n ≫= (fun f => fail (OpSync f)) ].

Definition first_failure (rs : list (option error)) : option error :=
  fold_right (fun r acc => match r with Some e => Some e | None => acc end) None rs.

Definition last_failure (rs : list (option error)) : option error :=
  fold_left (fun acc r => match r with Some e => Some e | None => acc end) rs None.

(** The operations a first [teardown] performs on a node. *)
Definition teardown_ops (n : Node) : list Op :=
  (match logWriter n with Some w => [OpFlush w] | None => [] end
   ++ match stdoutWriter n with Some w => [OpFlush w] | None => [] end
   ++ match logFile n with Some f => [OpSync f; OpClose f] | None => [] end
   ++ match stdoutFile n with Some f => [OpSync f; OpClose f] | None => [] end
   ++ match scriptFile n with Some f => [OpRemove (File_Name f)] | None => [] end)%list.

(** The reading "first error, and a prior error is kept": what [Error]
    would hold after a first [teardown]. *)
Definition teardown_keeps_first (m : Machine) : Prop :=
  exists r m',
    teardown m = Ok r m'
    /\ Error (state (node m')) =
         match Error (state (node m)) with
         | Some e => Some e
         | None => first_failure (teardown_results m)
         end.

(** [k] calls of a method in a row, with their results. *)
Fixpoint calls {A : Type} (k : nat) (c : Go A) : Go (list A) :=
  match k with
  | 0 => mret []
  | S k' => r ← c; rs ← calls k' c; mret (r :: rs)
  end.

(** *** signal *)

(** The reading "whenever the status is Running the signal is sent to the
    child's process group, and otherwise nothing happens": what [signal]
    would do on every node. *)
Definition signal_sends_whenever_running (sig : Signal) (m : Machine) : Prop :=
  (Status (state (node m)) = NodeStatus_Running ->
   exists pid m',
     signal sig m = Ok tt m'
     /\ w_trace (world m') = (w_trace (world m) ++ [OpKill (- pid) sig])%list
     /\ Status (state (node m')) = NodeStatus_Cancel)
  /\ (Status (state (node m)) <> NodeStatus_Running ->
      signal sig m = Ok tt m).

(** *** setup *)

(** The name [setup] gives the log file. *)
Definition log_name (safe : ascii -> bool) (n : Node) (now : Time)
    (requestId : string) : string :=
  ValidFilename_with safe (Name (step n)) "_" ++ "." ++ Format now log_layout
  ++ "." ++ TruncString requestId 8 ++ ".log".

(** The node as [setup] has stamped it, before the sub-steps run. *)
Definition stamped (Join : string -> string -> string) (safe : ascii -> bool)
    (logDir requestId : string) (m : Machine) : Machine :=
  {| node :=
       set_Log (Join logDir (log_name safe (node m) (w_now (world m)) requestId))
         (set_StartedAt (w_now (world m)) (node m));
     world := world m |}.

(** The operation that opens the log file, if the node has a log path. *)
Definition log_open (n : Node) : list Op :=
  if bool_decide (Log (state n) = "") then [] else [OpOpen (Log (state n))].

(** Where the redirect file of a step lies. *)
Definition redirect_path (IsAbs : string -> bool)
    (Join : string -> string -> string) (s : Step) : string :=
  if IsAbs (Stdout s) then Stdout s else Join (Dir s) (Stdout s).

Fixpoint string_map (f : ascii -> ascii) (s : string) : string :=
  match s with
  | EmptyString => EmptyString
  | String c rest => String (f c) (string_map f rest)
  end.

Definition is_digit (c : ascii) : bool :=
  Nat.leb 48 (nat_of_ascii c) && Nat.leb (nat_of_ascii c) 57.

Definition is_letter (c : ascii) : bool :=
  let k := nat_of_ascii c in
  (Nat.leb 97 k && Nat.leb k 122) || (Nat.leb 65 k && Nat.leb k 90).

(** [has_shape shape s]: [s] is [shape] with a decimal digit in place of
    each letter, as in ["YYYYMMDD.HH:MM:SS.mmm"]. *)
Fixpoint has_shape (shape s : string) : bool :=
  match shape, s with
  | EmptyString, EmptyString => true
  | String p shape', String c s' =>
      (if is_letter p then is_digit c else bool_decide (p = c))
      && has_shape shape' s'
  | _, _ => false
  end.

(** A wall-clock reading: a calendar date with a four-digit year. *)
Definition civil (t : Time) : Prop :=
  (0 <= t_year t <= 9999 /\ 1 <= t_month t <= 12 /\ 1 <= t_day t <= 31
   /\ 0 <= t_hour t <= 23 /\ 0 <= t_minute t <= 59 /\ 0 <= t_second t <= 59
   /\ 0 <= t_nanosecond t <= 999999999)%Z.

(** The timestamp by its digits: year, month, day, hour, minute, second
    and milliseconds. *)
Definition timestamp_digits (t : Time) : string :=
  fixed_digits 4 (t_year t) ++ fixed_digits 2 (t_month t)
  ++ fixed_digits 2 (t_day t) ++ "." ++ fixed_digits 2 (t_hour t) ++ ":"
  ++ fixed_digits 2 (t_minute t) ++ ":" ++ fixed_digits 2 (t_second t)
  ++ "." ++ fixed_digits 3 (t_nanosecond t / 1000000).

(** *** Execute *)

(** The node's step after [Execute] has resolved the effective command. *)
Definition resolved_step (SplitCommand : string -> string * list string)
    (env : gmap string string) (s : Step) : Step :=
  if bool_decide (CmdWithArgs s <> "") then
    let '(c, a) := SplitCommand (ExpandEnv env (CmdWithArgs s)) in
    {| Name := Name s; Dir := Dir s; Command := c; Args := a;
       CmdWithArgs := CmdWithArgs s; Script := Script s; Stdout := Stdout s;
       Output := Output s; Variables := Variables s |}
  else s.

(** The arguments after the program name that [Execute] hands the child
    of a node: the step's [Args], then the script file if there is one. *)
Definition child_args (s : Step) (script : option File) : list string :=
  (Args s ++ match script with Some f => [File_Name f] | None => [] end)%list.

(** Splits at the first backtick: the text before it and the text after. *)
Fixpoint until_tick (s : string) : option (string * string) :=
  match s with
  | EmptyString => None
  | String c rest =>
      if bool_decide (c = "`"%char) then Some ("", rest)
      else match until_tick rest with
           | Some (a, b) => Some (String c a, b)
           | None => None
           end
  end.

(** Rule (b) of the specification's interpolator, in its words: "a
    backtick-delimited substring is executed as a shell command and replaced
    with its trimmed stdout".  [sh] runs a command and gives that output;
    the fuel bounds the number of bytes still to scan. *)
Fixpoint substitute_backticks (fuel : nat) (sh : string -> string) (s : string) : string :=
  match fuel with
  | 0 => s
  | S fuel' =>
      match s with
      | EmptyString => EmptyString
      | String c rest =>
          if bool_decide (c = "`"%char) then
            match until_tick rest with
            | Some (command, after) =>
                sh command ++ substitute_backticks fuel' sh after
            | None => s
            end
          else String c (substitute_backticks fuel' sh rest)
      end
  end.

(** The interpolator of the specification: rule (a), "[${NAME}] and
    [$NAME] are replaced from the current process environment", then
    rule (b). *)
Definition Interpolate_spec (sh : string -> string)
    (env : gmap string string) (s : string) : string :=
  let e := ExpandEnv env s in
  substitute_backticks (String.length e) sh e.


(** ** Example nodes and systems *)

Definition example_step : Step :=
  {| Name := "my step/1"; Dir := "/work"; Command := "bash"; Args := ["-e"];
     CmdWithArgs := ""; Script := "echo hi"; Stdout := "out.txt";
     Output := "RESULT"; Variables := ["A=1"] |}.

Definition fresh_state : NodeState :=
  {| Status := NodeStatus_None; Log := ""; StartedAt := zero_time;
     FinishedAt := zero_time; RetryCount := 0; RetriedAt := zero_time;
     DoneCount := 0; Error := None |}.

Definition fresh_node (s : Step) : Node :=
  {| step := s; state := fresh_state; node_id := 1; cmd := None;
     cancelFunc := None; logFile := None; logWriter := None;
     stdoutFile := None; stdoutWriter := None; outputWriter := None;
     outputReader := None; scriptFile := None; done := false |}.

Definition example_now : Time :=
  {| t_year := 2022; t_month := 8; t_day := 5; t_hour := 13; t_minute := 4;
     t_second := 59; t_nanosecond := 123456789 |}.

Definition example_child : Child :=
  {| c_stdout := "  hello" ++ String "010" ""; c_stderr := "warning";
     c_pid := Some 4242%Z |}.

(** A system where the operations [fail] names end in error. *)
Definition world_failing (fail : Op -> option error) : World :=
  {| w_env := ∅; w_now := example_now; w_pipes := ∅; w_next := 0;
     w_trace := []; w_fail := fail;
     w_temp := fun dir pattern => dir ++ "/" ++ pattern ++ "123456";
     w_child := fun _ => example_child |}.

Definition example_world : World := world_failing (fun _ => None).

Definition example_machine : Machine :=
  {| node := fresh_node example_step; world := example_world |}.

Definition example_safe (c : ascii) : bool :=
  isAlphaNum c || bool_decide (c = "."%char) || bool_decide (c = "-"%char).

Definition EACCES : nat := 13.
Definition ENOSPC : nat := 28.
Definition EIO : nat := 5.
Definition EMFILE : nat := 24.

(** A node after [setup], with its log and redirect files open. *)
Definition open_node (prior : option error) : Node :=
  let log := NamedFile "/logs/a.log" in
  let out := NamedFile "/work/out.txt" in
  {| step := example_step;
     state := {| Status := NodeStatus_Error; Log := "/logs/a.log";
                 StartedAt := example_now; FinishedAt := zero_time;
                 RetryCount := 0; RetriedAt := zero_time; DoneCount := 0;
                 Error := prior |};
     node_id := 1; cmd := None; cancelFunc := None;
     logFile := Some log; logWriter := Some (NewWriter log);
     stdoutFile := Some out; stdoutWriter := Some (NewWriter out);
     outputWriter := None; outputReader := None; scriptFile := None;
     done := false |}.

(** The disk fills up while the log is flushed, and the later sync of the
    redirect file fails as well. *)
Definition flush_then_sync_fail (o : Op) : option error :=
  if bool_decide (o = OpFlush (NewWriter (NamedFile "/logs/a.log")))
  then Some (Errno "write" ENOSPC)
  else if bool_decide (o = OpSync (NamedFile "/work/out.txt"))
  then Some (Errno "fsync" EIO)
  else None.

Definition flush_fails (o : Op) : option error :=
  if bool_decide (o = OpFlush (NewWriter (NamedFile "/logs/a.log")))
  then Some (Errno "write" ENOSPC)
  else None.

Definition two_failures : Machine :=
  {| node := open_node None; world := world_failing flush_then_sync_fail |}.

Definition failure_after_exit_error : Machine :=
  {| node := open_node (Some (ExitError 1)); world := world_failing flush_fails |}.

(** A node the scheduler has marked Running and whose [Execute] has not
    built the command yet. *)
Definition running_without_command : Machine :=
  {| node := set_Status NodeStatus_Running (fresh_node example_step);
     world := example_world |}.

(** A node whose child is running. *)
Definition running_child : Machine :=
  {| node :=
       set_cmd
         (Some (with_Process (CommandContext "sleep" ["30"])
                  (Some {| Pid := 4242 |})))
         (set_Status NodeStatus_Running (fresh_node example_step));
     world := example_world |}.

(** A Running node whose command is built and not started. *)
Definition running_unstarted : Machine :=
  {| node :=
       set_cmd (Some (CommandContext "sleep" ["30"]))
         (set_Status NodeStatus_Running (fresh_node example_step));
     world := example_world |}.

(** The script directory cannot be written to. *)
Definition create_temp_fails (o : Op) : option error :=
  if bool_decide (o = OpCreateTemp "/work" "dagu_script-")
  then Some (Errno "open" EACCES)
  else None.

Definition unwritable_script_dir : Machine :=
  {| node := fresh_node example_step; world := world_failing create_temp_fails |}.

(** The log directory cannot be written to. *)
Definition log_open_fails (o : Op) : option error :=
  match o with
  | OpOpen path =>
      if String.prefix "/logs/" path then Some (Errno "open" EACCES) else None
  | _ => None
  end.

Definition unwritable_log_dir : Machine :=
  {| node := fresh_node example_step; world := world_failing log_open_fails |}.

(** The redirect file cannot be created. *)
Definition redirect_open_fails (o : Op) : option error :=
  if bool_decide (o = OpOpen "/work/out.txt")
  then Some (Errno "open" EACCES)
  else None.

Definition unwritable_redirect : Machine :=
  {| node := fresh_node example_step; world := world_failing redirect_open_fails |}.

(** The process has run out of file descriptors. *)
Definition pipe_fails (o : Op) : option error :=
  if bool_decide (o = OpPipe) then Some (Errno "pipe" EMFILE) else None.

Definition no_descriptors_left : Machine :=
  {| node := fresh_node example_step; world := world_failing pipe_fails |}.

(** A step whose command carries a command substitution. *)
Definition backtick_step : Step :=
  {| Name := "today"; Dir := "/work"; Command := "echo"; Args := ["`date`"];
     CmdWithArgs := "echo `date`"; Script := ""; Stdout := ""; Output := "";
     Variables := [] |}.


(** A shell in which every command prints the date. *)
Definition date_shell (command : string) : string := "20220805".

(** The child exits with status 1. *)
Definition child_exits_1 (o : Op) : option error :=
  match o with
  | OpRun _ => Some (ExitError 1)
  | _ => None
  end.

Definition failing_child_machine : Machine :=
  {| node := fresh_node example_step; world := world_failing child_exits_1 |}.

(** ** The other methods of [*Node] *)

(** The value of a status: [iota] numbers the constants from 0. *)
Definition NodeStatus_value (s : NodeStatus) : Z :=
  match s with
  | NodeStatus_None => 0
  | NodeStatus_Running => 1
  | NodeStatus_Error => 2
  | NodeStatus_Cancel => 3
  | NodeStatus_Success => 4
  | NodeStatus_Skipped => 5
  end.

(** [String], on any value of the integer type [NodeStatus]: the case of
    [NodeStatus_None] falls through to the default. *)
Definition NodeStatus_String (s : Z) : string :=
  if (s =? 1)%Z then "running"
  else if (s =? 2)%Z then "failed"
  else if (s =? 3)%Z then "canceled"
  else if (s =? 4)%Z then "finished"
  else if (s =? 5)%Z then "skipped"
  else "not started".

(** [clearState]: [n.NodeState = NodeState{}], the zero state. *)
Definition clearState : Go unit :=
  modify_node (with_state (fun _ =>
    {| Status := NodeStatus_None; Log := ""; StartedAt := zero_time;
       FinishedAt := zero_time; RetryCount := 0; RetriedAt := zero_time;
       DoneCount := 0; Error := None |})).

(** [cancel].  The model returns the cancel function the method has
    called, if any.  What the call does is not modelled: it cancels the
    context [Execute] gave to [exec.CommandContext], upon which a run that
    is under way kills its child.  Between two methods of the model no run
    is under way, and the system is left as it is. *)
Definition cancel : Go (option CancelFunc) :=
  n ← get_node;
  let status := Status (state n) in
  (if bool_decide (status = NodeStatus_Running) then
     modify_node (set_Status NodeStatus_Cancel)
   else mret tt);;
  match cancelFunc n with
  | Some fn => mret (Some fn)
  | None => mret None
  end.

Definition set_node_id (i : nat) (n : Node) : Node :=
  {| step := step n; state := state n; node_id := i; cmd := cmd n;
     cancelFunc := cancelFunc n; logFile := logFile n;
     logWriter := logWriter n; stdoutFile := stdoutFile n;
     stdoutWriter := stdoutWriter n; outputWriter := outputWriter n;
     outputReader := outputReader n; scriptFile := scriptFile n;
     done := done n |}.

(** [init], with the package variable [nextNodeId] passed in and out.  A
    nil [Variables] and the empty slice it is replaced with are the same
    list here.  The counter is an [int]: the model holds as long as it
    stays below 2^63, where [nextNodeId++] does not wrap. *)
Definition init (n : Node) (nextNodeId : nat) : Node * nat :=
  if bool_decide (node_id n <> 0) then (n, nextNodeId)
  else (set_node_id nextNodeId n, S nextNodeId).

(** [init] on the nodes of a list, one after the other. *)
Fixpoint init_all (ns : list Node) (nextNodeId : nat) : list Node * nat :=
  match ns with
  | [] => ([], nextNodeId)
  | n :: rest =>
      let '(n', next) := init n nextNodeId in
      let '(rest', next') := init_all rest next in
      (n' :: rest', next')
  end.

(** *** What the methods do to the system *)

(** The operations of [setup]: opening and creating files, and writing,
    syncing and closing a named file. *)
Definition setup_op (o : Op) : bool :=
  match o with
  | OpOpen _ | OpCreateTemp _ _ => true
  | OpWriteString (NamedFile _) _ | OpSync (NamedFile _)
  | OpClose (NamedFile _) => true
  | _ => false
  end.

(** A file handle that is not the end of a pipe. *)
Definition named_handle (f : option File) : bool :=
  match f with
  | Some (PipeReader _) | Some (PipeWriter _) => false
  | _ => true
  end.

Definition closes_reader (o : Op) : bool :=
  match o with
  | OpClose (PipeReader _) => true
  | _ => false
  end.

(** The error of [os.Pipe], for a step that asks for one. *)
Definition pipe_error (m : Machine) : option error :=
  if bool_decide (Output (step (node m)) <> "") then w_fail (world m) OpPipe
  else None.

(** The operations of [Execute] that runs the command [c]. *)
Definition Execute_ops (m : Machine) (c : Cmd) : list Op :=
  if bool_decide (Output (step (node m)) <> "") then
    match w_fail (world m) OpPipe with
    | Some _ => [OpPipe]
    | None => [OpPipe; OpRun c; OpClose (PipeWriter (w_next (world m)))]
    end
  else [OpRun c].

(** The sinks [Execute] gives the child's stdout, before a capture pipe
    is added, and the sinks it gives its stderr. *)
Definition stdout_sinks (n : Node) : list Sink :=
  match stdoutWriter n with
  | Some _ => [ToWriter (logWriter n); ToWriter (stdoutWriter n)]
  | None =>
      match logWriter n with
      | Some _ => [ToWriter (logWriter n)]
      | None => [ToFile os_Stdout]
      end
  end.

Definition stderr_sinks (n : Node) : list Sink :=
  match logWriter n with
  | Some _ => [ToWriter (logWriter n)]
  | None => [ToFile os_Stdout]
  end.

(** The operation that opens the redirect file, if the step has one. *)
Definition redirect_open (IsAbs : string -> bool)
    (Join : string -> string -> string) (s : Step) : list Op :=
  if bool_decide (Stdout s <> "") then [OpOpen (redirect_path IsAbs Join s)]
  else [].

(** A step without script, redirect or capture. *)
Definition plain_step : Step :=
  {| Name := "plain"; Dir := "/work"; Command := "sleep"; Args := ["30"];
     CmdWithArgs := ""; Script := ""; Stdout := ""; Output := "";
     Variables := [] |}.

Definition running_plain (w : World) : Machine :=
  {| node := set_Status NodeStatus_Running (fresh_node plain_step);
     world := w |}.

(** The script file can be created and not written. *)
Definition script_write_fails (o : Op) : option error :=
  match o with
  | OpWriteString _ _ => Some (Errno "write" ENOSPC)
  | _ => None
  end.

Definition full_disk : Machine :=
  {| node := fresh_node example_step; world := world_failing script_write_fails |}.

(** The answers of the system, apart from what has been done to it. *)
Definition same_oracles (w w' : World) : Prop :=
  w_now w' = w_now w /\ w_fail w' = w_fail w /\ w_temp w' = w_temp w
  /\ w_child w' = w_child w.

(** Nothing but the trace has changed. *)
Definition same_but_trace (w w' : World) : Prop :=
  w_env w' = w_env w /\ w_pipes w' = w_pipes w /\ w_next w' = w_next w
  /\ same_oracles w w'.


(** The command [Execute] builds on a node, with the step resolved as
    [resolved_step] says: path and arguments, directory, environment,
    process group, and the sinks of the two output streams.  The write end
    of the capture pipe is the last stdout sink when the pipe exists. *)
Definition built_command (SplitCommand : string -> string * list string)
    (m : Machine) : Cmd :=
  let s := resolved_step SplitCommand (w_env (world m)) (step (node m)) in
  {| cmd_Args := Command s :: child_args s (scriptFile (node m));
     cmd_Dir := Dir s; cmd_Env := Variables s;
     cmd_Setpgid := true; cmd_Pgid := 0;
     cmd_Stdout :=
       (stdout_sinks (node m)
        ++ if bool_decide (Output (step (node m)) <> "") then
             match w_fail (world m) OpPipe with
             | Some _ => []
             | None => [ToFile (PipeWriter (w_next (world m)))]
             end
           else [])%list;
     cmd_Stderr := stderr_sinks (node m);
     cmd_Process := None |}.

(** The temporary file [setupScript] gets for the script of a node, and
    the operations of a [setupScript] that does not fail. *)
Definition script_file (m : Machine) : File :=
  NamedFile (w_temp (world m) (Dir (step (node m))) "dagu_script-").

Definition script_ops (m : Machine) : list Op :=
  if bool_decide (Script (step (node m)) <> "") then
    [OpCreateTemp (Dir (step (node m))) "dagu_script-";
     OpWriteString (script_file m) (Script (step (node m)));
     OpSync (script_file m); OpClose (script_file m)]
  else [].

(** The handles of a node whose [setup] has returned nil on the machine
    [m], the log path being [log]. *)
Definition opened (IsAbs : string -> bool) (Join : string -> string -> string)
    (log : string) (m : Machine) (n' : Node) : Prop :=
  let n := node m in
  logFile n' = (if bool_decide (log = "") then logFile n
                else Some (NamedFile log))
  /\ logWriter n' = (if bool_decide (log = "") then logWriter n
                     else Some (NewWriter (NamedFile log)))
  /\ stdoutFile n' =
       (if bool_decide (Stdout (step n) <> "")
        then Some (NamedFile (redirect_path IsAbs Join (step n)))
        else stdoutFile n)
  /\ stdoutWriter n' =
       (if bool_decide (Stdout (step n) <> "")
        then Some (NewWriter (NamedFile (redirect_path IsAbs Join (step n))))
        else stdoutWriter n)
  /\ scriptFile n' =
       (if bool_decide (Script (step n) <> "") then Some (script_file m)
        else scriptFile n).

(** The machine a method leaves behind, whether it returned or not. *)
Definition machine_of {A : Type} (r : Res A) : Machine :=
  match r with Ok _ m => m | Panic m => m end.

(** The example node after a [setup] in the example system. *)
Definition example_after_setup : Machine :=
  Eval vm_compute in
    machine_of (setup Join_plain IsAbs_plain example_safe
                  "/logs" "0123456789abcdef" example_machine).

(** The example node after the [Execute] that follows. *)
Definition example_after_Execute : Machine :=
  Eval vm_compute in
    machine_of (Execute TrimSpace_ascii SplitCommand_words example_after_setup).

(** And after the [teardown] that ends the run. *)
Definition example_after_teardown : Machine :=
  Eval vm_compute in machine_of (teardown example_after_Execute).

(** The example node once a run is over: [teardown] has set [done]. *)
Definition torn_down : Machine :=
  {| node := set_done true (node example_after_setup);
     world := world example_after_setup |}.

(** Three nodes of a DAG, the second with an id already, and the nodes
    after [init] has run on each with the counter at 2. *)
Definition example_nodes : list Node :=
  [set_node_id 0 (fresh_node example_step); fresh_node plain_step;
   set_node_id 0 (fresh_node backtick_step)].

Definition example_nodes_after_init : list Node :=
  [set_node_id 2 (fresh_node example_step); fresh_node plain_step;
   set_node_id 3 (fresh_node backtick_step)].

(** A step that uses the variable the example step captures. *)
Definition consumer_step : Step :=
  {| Name := "consumer"; Dir := "/work"; Command := ""; Args := [];
     CmdWithArgs := "echo ${RESULT} done"; Script := ""; Stdout := "";
     Output := ""; Variables := [] |}.

(** *** The runs the model stands for *)

(** The most a pipe holds (64 KiB on Linux): a write beyond it blocks
    until the pipe is read. *)
Definition pipe_capacity : Z := 65536.

(** The value [Execute] hands to [os.Setenv]: the trimmed bytes that the
    run of the command of a node has copied from the child's stdout. *)
Definition captured (TrimSpace : string -> string)
    (SplitCommand : string -> string * list string) (m : Machine) : string :=
  TrimSpace (stdout_written (w_child (world m) (built_command SplitCommand m))).

(** What a run needs in order to return, on the side of [Execute]: no nil
    writer is wired to the child's stdout ([io.MultiWriter] is given the
    log writer whenever there is a redirect writer), and when the step has
    a capture variable the bytes copied from the child's stdout are no
    more than a pipe holds, since nobody reads the pipe before the run has
    returned.  A run that has returned satisfies both. *)
Definition undisturbed (SplitCommand : string -> string * list string)
    (m : Machine) : Prop :=
  (logWriter (node m) = None -> stdoutWriter (node m) = None)
  /\ (Output (step (node m)) <> "" ->
      (Z.of_nat (String.length
                   (stdout_written
                      (w_child (world m) (built_command SplitCommand m))))
       <= pipe_capacity)%Z).

(** The environment after the [os.Setenv] of [Execute]. *)
Definition env_after_capture (TrimSpace : string -> string)
    (SplitCommand : string -> string * list string) (m : Machine)
    : gmap string string :=
  let k := Output (step (node m)) in
  let v := captured TrimSpace SplitCommand m in
  if setenv_accepts k v then <[k := v]> (w_env (world m)) else w_env (world m).

(** The reading "on a normal exit of the child the trimmed output is in
    the environment under the variable". *)
Definition stores_output_on_normal_exit (TrimSpace : string -> string)
    (SplitCommand : string -> string * list string) (m : Machine) : Prop :=
  let c := built_command SplitCommand m in
  Output (step (node m)) <> "" ->
  w_fail (world m) OpPipe = None ->
  c_pid (w_child (world m) c) <> None ->
  w_fail (world m) (OpRun c) = None ->
  exists m',
    Execute TrimSpace SplitCommand m = Ok None m'
    /\ w_env (world m') !! Output (step (node m))
       = Some (captured TrimSpace SplitCommand m).

(** The reading "the trimmed output is in the environment under the
    variable however the child has ended". *)
Definition stores_output_on_every_exit (TrimSpace : string -> string)
    (SplitCommand : string -> string * list string) (m : Machine) : Prop :=
  Output (step (node m)) <> "" ->
  w_fail (world m) OpPipe = None ->
  exists r m',
    Execute TrimSpace SplitCommand m = Ok r m'
    /\ w_env (world m') !! Output (step (node m))
       = Some (captured TrimSpace SplitCommand m).

(** The reading "the child's arguments are the declared [Args], then the
    script file", on a node as it is before [Execute]. *)
Definition appends_to_declared_args (TrimSpace : string -> string)
    (SplitCommand : string -> string * list string) (m : Machine) : Prop :=
  forall r m',
    Execute TrimSpace SplitCommand m = Ok r m' ->
    exists c,
      cmd (node m') = Some c
      /\ tail (cmd_Args c) = child_args (step (node m)) (scriptFile (node m)).

(** A child that prints a NUL byte and exits normally. *)
Definition binary_child : Child :=
  {| c_stdout := String "a" (String "000" (String "b" ""));
     c_stderr := ""; c_pid := Some 4243%Z |}.

Definition binary_output : Machine :=
  {| node := fresh_node example_step;
     world :=
       {| w_env := ∅; w_now := example_now; w_pipes := ∅; w_next := 0;
          w_trace := []; w_fail := fun _ => None;
          w_temp := fun dir pattern => dir ++ "/" ++ pattern ++ "123456";
          w_child := fun _ => binary_child |} |}.

(** A step whose capture variable has a name the environment refuses, and
    whose child exits with status 1. *)
Definition misnamed_output_step : Step :=
  {| Name := "misnamed"; Dir := "/work"; Command := "make"; Args := [];
     CmdWithArgs := ""; Script := ""; Stdout := ""; Output := "A=B";
     Variables := [] |}.

Definition misnamed_output : Machine :=
  {| node := fresh_node misnamed_output_step;
     world := world_failing child_exits_1 |}.

(** Two steps with the same [CmdWithArgs] and different declared [Args]. *)
Definition options_step (declared : list string) : Step :=
  {| Name := "options"; Dir := "/work"; Command := "bash"; Args := declared;
     CmdWithArgs := "bash $OPTS"; Script := ""; Stdout := ""; Output := "";
     Variables := [] |}.

Definition options_machine (declared : list string) : Machine :=
  {| node := fresh_node (options_step declared);
     world :=
       {| w_env := {[ "OPTS" := "-e -x" ]}; w_now := example_now;
          w_pipes := ∅; w_next := 0; w_trace := []; w_fail := fun _ => None;
          w_temp := fun dir pattern => dir ++ "/" ++ pattern ++ "123456";
          w_child := fun _ => example_child |} |}.


(** ** Tactics *)

(** Unfolding of the monad and of the primitive operations. *)
Ltac go_unfold_goal :=
  unfold issue, get_node, get_world, modify_node, modify_world, panic,
    mbind, mret, Go_bind, Go_ret.

Ltac go_step :=
  unfold issue, get_node, get_world, modify_node, modify_world, panic,
    mbind, mret, Go_bind, Go_ret in *;
  simpl in *.

(** The sub-steps of [setup], and the case analysis they call for: the
    tests on strings, the absoluteness of the redirect path, and the
    outcome of each operation. *)
Ltac substeps_unfold :=
  unfold run_setup, setupLog, setupStdout, setupScript,
    OpenOrCreateFile, os_CreateTemp, File_WriteString, File_Sync,
    File_Close, redirect_path, log_open;
  go_unfold_goal; simpl.

Ltac substeps_cases IsAbs w :=
  repeat match goal with
         | |- context [bool_decide ?P] => destruct (bool_decide_reflect P)
         | |- context [IsAbs ?x] =>
             let E := fresh "E" in destruct (IsAbs x) eqn:E
         | |- context [w_fail w ?o] =>
             let E := fresh "E" in destruct (w_fail w o) eqn:E
         | _ => progress simpl
         end.

(** A case that its hypotheses rule out. *)
Ltac impossible := exfalso; solve [congruence | contradiction | tauto].

(** [Execute], and its case analysis: the tests on strings, the split
    command, the handles of the node, and the reads of the fresh pipe. *)
Ltac execute_unfold :=
  unfold Execute, Cmd_Run, os_Pipe, File_Close, read_all, os_Setenv,
    CommandContext, wire, file_sink, resolved_step;
  go_unfold_goal; simpl.

Ltac execute_cases SplitCommand w :=
  repeat match goal with
         | |- context [bool_decide ?P] => destruct (bool_decide_reflect P)
         | |- context [SplitCommand ?x] =>
             let E := fresh "E" in destruct (SplitCommand x) eqn:E
         | |- context [<[?k := ?v]> ?p !! ?k] => rewrite lookup_insert_eq
         | |- context [setenv_accepts ?k ?v] =>
             let E := fresh "E" in destruct (setenv_accepts k v) eqn:E
         | |- context [match ?o with Some _ => _ | None => _ end] =>
             is_var o; destruct o
         | _ => progress simpl
         end.


(** Closes a goal [trace = trace ++ ?ops], whatever was appended. *)
Ltac solve_trace :=
  simpl; rewrite <- ?app_assoc; simpl;
  first [reflexivity | symmetry; apply app_nil_r].

(** ** Examples *)

Example Format_example :
  Format example_now log_layout = "20220805.13:04:59.123".
Proof. reflexivity. Qed.

Example appendInt_examples :
  appendInt 7 2 = "07" /\ appendInt 2022 4 = "2022"
  /\ appendInt 12345 4 = "12345" /\ appendInt (-5) 4 = "-0005".
Proof. repeat split; reflexivity. Qed.

Example ExpandEnv_example :
  ExpandEnv {[ "HOME" := "/root"; "X" := "y" ]}
    "a $HOME ${X} ${} $ $$ ${X}b $Xb `date` $"
  = "a /root y  $  yb  `date` $".
Proof. vm_compute. reflexivity. Qed.

Example Interpolate_spec_example :
  Interpolate_spec date_shell {[ "D" := "/tmp" ]} "ls $D/`date`.log"
  = "ls /tmp/20220805.log".
Proof. vm_compute. reflexivity. Qed.

Example ValidFilename_example :
  ValidFilename_with example_safe "my step/1" "_" = "my_step_1".
Proof. reflexivity. Qed.

Example SplitCommand_words_example :
  SplitCommand_words "echo `date` x" = ("echo", ["`date`"; "x"]).
Proof. reflexivity. Qed.

Example TrimSpace_ascii_example :
  TrimSpace_ascii ("  hello world " ++ String "010" "") = "hello world".
Proof. reflexivity. Qed.

Example signal_example :
  match signal SIGTERM running_child with
  | Ok _ m =>
      w_trace (world m) = [OpKill (-4242) SIGTERM]
      /\ Status (state (node m)) = NodeStatus_Cancel
  | Panic _ => False
  end.
Proof. vm_compute. split; reflexivity. Qed.

(** A whole life cycle: the operations of [setup], [Execute] and two
    [teardown]s on the example node, and the captured variable. *)
Example life_cycle_example :
  match
    (setup Join_plain IsAbs_plain example_safe "/logs" "0123456789abcdef";;
     Execute TrimSpace_ascii SplitCommand_words;;
     teardown;; teardown) example_machine
  with
  | Ok r m =>
      r = None
      /\ map_to_list (w_env (world m)) = [("RESULT", "hello")]
      /\ length (w_trace (world m)) = 16
      /\ last (w_trace (world m)) = Some (OpRemove "/work/dagu_script-123456")
  | Panic _ => False
  end.
Proof. vm_compute. repeat split; reflexivity. Qed.

(** ** Proofs *)

(** *** teardown *)

Lemma teardown_done (m : Machine) :
  done (node m) = true -> teardown m = Ok None m.
Proof.
  intros Hd. unfold teardown. go_step. rewrite Hd. reflexivity.
Qed.

Lemma teardown_first_call (m : Machine) :
  done (node m) = false ->
  exists m',
    teardown m = Ok (last_failure (teardown_results m)) m'
    /\ done (node m') = true
    /\ Error (state (node m')) =
         match last_failure (teardown_results m) with
         | Some e => Some e
         | None => Error (state (node m))
         end
    /\ w_trace (world m') = (w_trace (world m) ++ teardown_ops (node m))%list.
Proof.
  destruct m as [n w]. destruct n as [st s i c cf lf lw sf sw ow or sc d].
  simpl. intros ->.
  unfold teardown, teardown_results, teardown_ops, last_failure,
    Writer_Flush, File_Sync, File_Close, os_Remove.
  go_step.
  destruct lw as [lw|], sw as [sw|], lf as [lf|], sf as [sf|], sc as [sc|];
    simpl;
    repeat match goal with
           | |- context [w_fail w ?o] => destruct (w_fail w o)
           end;
    simpl; eexists; repeat split; simpl;
    rewrite <- ?app_assoc; simpl; rewrite ?app_nil_r; reflexivity.
Qed.

(** C1, as amended.  A first [teardown] returns the last error among its
    flushes and syncs (log writer, stdout writer, log file, stdout file, in
    that order).  When there is one, it is stored in [Error], replacing
    whatever was there; when there is none, [Error] stays as it was. *)
Theorem teardown_records_last_error (m : Machine) :
  done (node m) = false ->
  exists m',
    teardown m = Ok (last_failure (teardown_results m)) m'
    /\ Error (state (node m')) =
         match last_failure (teardown_results m) with
         | Some e => Some e
         | None => Error (state (node m))
         end.
Proof.
  intros Hd. destruct (teardown_first_call m Hd) as (m' & Ht & _ & He & _).
  exists m'. split; assumption.
Qed.

Lemma teardown_records_last_error_witness :
  done (node two_failures) = false
  /\ exists m',
       teardown two_failures = Ok (Some (Errno "fsync" EIO)) m'
       /\ Error (state (node m')) = Some (Errno "fsync" EIO).
Proof.
  split; [reflexivity|].
  apply (teardown_records_last_error two_failures). reflexivity.
Defined.

(** C1, as stated, fails.  With two failures the error kept is the later
    one, not the first; and an exit error already in [Error] is replaced by
    the flush error. *)
Lemma teardown_keeps_first_fails :
  ~ teardown_keeps_first two_failures
  /\ ~ teardown_keeps_first failure_after_exit_error.
Proof.
  split; intros (r & m' & Ht & He).
  - destruct (teardown_first_call two_failures eq_refl) as (m2 & Ht2 & _ & He2 & _).
    rewrite Ht2 in Ht. injection Ht as _ <-.
    rewrite He2 in He. vm_compute in He. discriminate He.
  - destruct (teardown_first_call failure_after_exit_error eq_refl)
      as (m2 & Ht2 & _ & He2 & _).
    rewrite Ht2 in Ht. injection Ht as _ <-.
    rewrite He2 in He. vm_compute in He. discriminate He.
Qed.

Lemma calls_teardown_done (k : nat) (m : Machine) :
  done (node m) = true -> calls k teardown m = Ok (replicate k None) m.
Proof.
  intros Hd. induction k as [|k IH]; simpl.
  - reflexivity.
  - unfold mbind, Go_bind. rewrite (teardown_done m Hd).
    fold (@mbind Go _). unfold mbind, Go_bind in *. rewrite IH. reflexivity.
Qed.

(** C9.  [teardown] is idempotent.  The first call on a node flushes the
    writers, syncs and closes the files, removes the script file and sets
    [done]; any number of further calls return nil and leave the node and
    the system as they are. *)
Theorem teardown_idempotent (m : Machine) :
  exists r m1,
    teardown m = Ok r m1
    /\ done (node m1) = true
    /\ w_trace (world m1) =
         (w_trace (world m)
          ++ (if done (node m) then [] else teardown_ops (node m)))%list
    /\ forall k, calls k teardown m1 = Ok (replicate k None) m1.
Proof.
  destruct (done (node m)) eqn:Hd.
  - exists None, m. rewrite (teardown_done m Hd), app_nil_r.
    repeat split; try assumption.
    intros k. apply calls_teardown_done, Hd.
  - destruct (teardown_first_call m Hd) as (m1 & Ht & Hd1 & _ & Htr).
    eexists _, m1. repeat split; try eassumption.
    intros k. apply calls_teardown_done, Hd1.
Qed.

(** *** signal *)

(** C4, as amended.  On a Running node whose command has a started
    process, [signal] sends the signal to the negative pid and the status
    becomes Canceled.  On a Running node that has no command yet, nothing
    is sent and the status still becomes Canceled.  On any other status
    nothing is sent and nothing changes.  A call that follows a call
    changes nothing. *)
Theorem signal_spec (sig : Signal) (m : Machine) :
  (if bool_decide (Status (state (node m)) = NodeStatus_Running) then
     match cmd (node m) with
     | Some c =>
         match cmd_Process c with
         | Some p =>
             signal sig m =
               Ok tt {| node := set_Status NodeStatus_Cancel (node m);
                        world := record_op (OpKill (- Pid p) sig) (world m) |}
         | None => True
         end
     | None =>
         signal sig m =
           Ok tt {| node := set_Status NodeStatus_Cancel (node m);
                    world := world m |}
     end
   else signal sig m = Ok tt m)
  /\ match signal sig m with
     | Ok _ m1 => signal sig m1 = Ok tt m1
     | Panic _ => True
     end.
Proof.
  destruct m as [n w]. destruct n as [st s i c cf lf lw sf sw ow or sc d].
  destruct s as [status l t1 t2 rc t3 dc e].
  unfold signal, syscall_Kill. go_step.
  destruct status; simpl; try (split; reflexivity).
  destruct c as [c|]; simpl; [|split; reflexivity].
  destruct (cmd_Process c) as [p|]; simpl; split; try reflexivity; exact I.
Qed.

(** X1.  On a Running node whose command is built and has no process yet
    ([cmd.Process] is nil until the child has started), [signal] panics:
    it dereferences the nil process, and neither sends a signal nor changes
    the status. *)
Theorem signal_unstarted_panics (sig : Signal) (m : Machine) (c : Cmd) :
  Status (state (node m)) = NodeStatus_Running ->
  cmd (node m) = Some c ->
  cmd_Process c = None ->
  signal sig m = Panic m.
Proof.
  destruct m as [n w]. simpl. intros Hs Hc Hp.
  unfold signal. go_step. rewrite Hs, Hc, Hp. reflexivity.
Qed.

Lemma signal_unstarted_panics_witness :
  signal SIGTERM running_unstarted = Panic running_unstarted.
Proof.
  exact (signal_unstarted_panics SIGTERM running_unstarted
           (CommandContext "sleep" ["30"]) eq_refl eq_refl eq_refl).
Defined.

(** C4, as stated, fails: on a Running node without a command no signal
    is sent, and yet the status becomes Canceled. *)
Lemma signal_without_command_sends_nothing :
  ~ signal_sends_whenever_running SIGTERM running_without_command.
Proof.
  intros [H _]. destruct (H eq_refl) as (pid & m' & Hs & Ht & _).
  vm_compute in Hs. injection Hs as <-.
  simpl in Ht. discriminate Ht.
Qed.

(** *** Strings and timestamps *)

Lemma append_nil_r (s : string) : s ++ "" = s.
Proof.
  induction s as [|c s IH]; [reflexivity|].
  change (String c (s ++ "") = String c s). rewrite IH. reflexivity.
Qed.

Lemma length_take_string (n : nat) (s : string) :
  String.length (take_string n s) = Nat.min n (String.length s).
Proof.
  revert s. induction n as [|n IH]; intros [|c s]; simpl; try reflexivity.
  rewrite IH. reflexivity.
Qed.

Lemma take_drop_string (n : nat) (s : string) :
  take_string n s ++ drop_string n s = s.
Proof.
  revert s. induction n as [|n IH]; intros [|c s]; try reflexivity.
  change (String c (take_string n s ++ drop_string n s) = String c s).
  rewrite IH. reflexivity.
Qed.

Lemma ValidFilename_pointwise (safe : ascii -> bool) (name : string) :
  ValidFilename_with safe name "_" =
  string_map (fun c => if safe c then c else "_"%char) name.
Proof.
  induction name as [|c name IH]; [reflexivity|].
  cbn [ValidFilename_with string_map]. rewrite IH.
  destruct (safe c); reflexivity.
Qed.

Lemma ndigits_fuel_le (w : nat) :
  forall (f : nat) (x : Z),
    (0 <= x < 10 ^ Z.of_nat (S w))%Z -> ndigits_fuel f x <= S w.
Proof.
  induction w as [|w IH]; intros f x Hx; destruct f as [|f]; simpl; try lia.
  - change (10 ^ Z.of_nat 1)%Z with 10%Z in Hx.
    destruct (Z.ltb_spec x 10); lia.
  - destruct (Z.ltb_spec x 10); [lia|].
    apply le_n_S, IH. split.
    + apply Z.div_pos; lia.
    + apply Z.div_lt_upper_bound; [lia|].
      replace (Z.of_nat (S (S w))) with (1 + Z.of_nat (S w))%Z in Hx by lia.
      rewrite Z.pow_add_r in Hx by lia. exact (proj2 Hx).
Qed.

Lemma appendInt_fixed (x : Z) (w : nat) :
  (0 <= x < 10 ^ Z.of_nat (S w))%Z -> appendInt x (S w) = fixed_digits (S w) x.
Proof.
  intros Hx. unfold appendInt.
  destruct (Z.ltb_spec x 0); [lia|].
  rewrite Z.abs_eq by lia.
  rewrite Nat.max_l by (apply ndigits_fuel_le; exact Hx).
  reflexivity.
Qed.

Lemma is_digit_digit (x : Z) : is_digit (digit x) = true.
Proof.
  unfold digit.
  assert (H : Z.to_nat (x mod 10) < 10)
    by (pose proof (Z.mod_pos_bound x 10); lia).
  remember (Z.to_nat (x mod 10)) as r eqn:Hr. clear Hr.
  do 10 (destruct r as [|r]; [reflexivity|]). lia.
Qed.

Lemma millis_of_nanos (ns : Z) :
  take_string 3 (fixed_digits 9 ns) = fixed_digits 3 (ns / 1000000).
Proof.
  cbv [take_string fixed_digits String.append].
  rewrite !Zdiv_Zdiv by lia. reflexivity.
Qed.

Lemma Format_civil (t : Time) :
  civil t -> Format t log_layout = timestamp_digits t.
Proof.
  intros (Hy & Hmo & Hd & Hh & Hmi & Hs & Hn).
  unfold Format, log_layout, timestamp_digits, format_chunk, fold_right.
  rewrite millis_of_nanos.
  rewrite !appendInt_fixed by (simpl; lia).
  rewrite append_nil_r. reflexivity.
Qed.

Lemma timestamp_digits_shape (t : Time) :
  has_shape "YYYYMMDD.HH:MM:SS.mmm" (timestamp_digits t) = true.
Proof.
  cbv [timestamp_digits fixed_digits String.append].
  cbn -[digit is_digit Z.div].
  rewrite !is_digit_digit. reflexivity.
Qed.

(** *** setup *)

Lemma setup_stamps (Join : string -> string -> string) (IsAbs : string -> bool)
    (safe : ascii -> bool) (logDir requestId : string) (m : Machine) :
  setup Join IsAbs safe logDir requestId m =
  run_setup [setupLog; setupStdout Join IsAbs; setupScript]
    (stamped Join safe logDir requestId m).
Proof. reflexivity. Qed.

(** The sub-steps always return, and leave the step, the log path and the
    start time alone. *)
Lemma substeps_keep (Join : string -> string -> string) (IsAbs : string -> bool)
    (m : Machine) :
  exists r m',
    run_setup [setupLog; setupStdout Join IsAbs; setupScript] m = Ok r m'
    /\ StartedAt (state (node m')) = StartedAt (state (node m))
    /\ Log (state (node m')) = Log (state (node m))
    /\ step (node m') = step (node m).
Proof.
  destruct m as [n w]. destruct n as [s st i c cf lf lw sf sw ow or sc d].
  destruct st as [status l t1 t2 rc t3 dc e].
  destruct s as [name dir com args cwa scr out outp vars].
  substeps_unfold. substeps_cases IsAbs w;
    eexists _, _; repeat split; reflexivity.
Qed.

(** [setup] always returns; it sets [StartedAt] to the clock reading and
    [Log] to the joined log path, whatever its sub-steps do afterwards. *)
Lemma setup_sets_log (Join : string -> string -> string) (IsAbs : string -> bool)
    (safe : ascii -> bool) (logDir requestId : string) (m : Machine) :
  exists r m',
    setup Join IsAbs safe logDir requestId m = Ok r m'
    /\ StartedAt (state (node m')) = w_now (world m)
    /\ Log (state (node m')) =
         Join logDir (log_name safe (node m) (w_now (world m)) requestId)
    /\ step (node m') = step (node m).
Proof.
  rewrite setup_stamps.
  destruct (substeps_keep Join IsAbs (stamped Join safe logDir requestId m))
    as (r & m' & Hr & Ht & Hl & Hs).
  exists r, m'. rewrite Ht, Hl, Hs. repeat split; assumption.
Qed.

(** C5.  [setup] sets [StartedAt] to the current time and [Log] to the
    join of the log directory with
    [{sanitized name}.{timestamp}.{first 8 bytes of the request id}.log]:
    the sanitized name is the step name with every byte that is not
    filename-safe replaced by ['_'], and the timestamp of a wall-clock
    reading has the shape YYYYMMDD.HH:MM:SS.mmm, made of the digits of its
    year, month, day, hour, minute, second and milliseconds. *)
Theorem setup_log_path (Join : string -> string -> string) (IsAbs : string -> bool)
    (safe : ascii -> bool) (logDir requestId : string) (m : Machine) :
  civil (w_now (world m)) ->
  exists r m',
    setup Join IsAbs safe logDir requestId m = Ok r m'
    /\ StartedAt (state (node m')) = w_now (world m)
    /\ Log (state (node m')) =
         Join logDir
           (string_map (fun c => if safe c then c else "_"%char)
              (Name (step (node m)))
            ++ "." ++ timestamp_digits (w_now (world m))
            ++ "." ++ take_string 8 requestId ++ ".log")
    /\ has_shape "YYYYMMDD.HH:MM:SS.mmm" (timestamp_digits (w_now (world m))) = true
    /\ take_string 8 requestId ++ drop_string 8 requestId = requestId
    /\ String.length (take_string 8 requestId)
       = Nat.min 8 (String.length requestId).
Proof.
  intros Hc.
  destruct (setup_sets_log Join IsAbs safe logDir requestId m)
    as (r & m' & Hr & Ht & Hl & _).
  exists r, m'. split; [exact Hr|]. split; [exact Ht|].
  split.
  - rewrite Hl. unfold log_name, TruncString.
    rewrite ValidFilename_pointwise, (Format_civil _ Hc). reflexivity.
  - split; [apply timestamp_digits_shape|].
    split; [apply take_drop_string | apply length_take_string].
Qed.

Lemma setup_log_path_witness :
  civil example_now
  /\ exists r m',
       setup Join_plain IsAbs_plain example_safe "/logs" "0123456789abcdef"
         example_machine = Ok r m'
       /\ StartedAt (state (node m')) = example_now
       /\ Log (state (node m')) =
            "/logs/my_step_1.20220805.13:04:59.123.01234567.log"
       /\ has_shape "YYYYMMDD.HH:MM:SS.mmm" "20220805.13:04:59.123" = true
       /\ "01234567" ++ "89abcdef" = "0123456789abcdef"
       /\ 8 = 8.
Proof.
  assert (Hc : civil example_now) by (unfold civil; simpl; lia).
  split; [exact Hc|].
  exact (setup_log_path Join_plain IsAbs_plain example_safe "/logs"
           "0123456789abcdef" example_machine Hc).
Defined.

(** What the sub-steps do about the redirect file, on any node. *)
Lemma substeps_redirect (Join : string -> string -> string)
    (IsAbs : string -> bool) (m : Machine) :
  Stdout (step (node m)) <> "" ->
  exists r m',
    run_setup [setupLog; setupStdout Join IsAbs; setupScript] m = Ok r m'
    /\ match (if bool_decide (Log (state (node m)) = "") then None
              else w_fail (world m) (OpOpen (Log (state (node m))))) with
       | Some e =>
           r = Some e
           /\ w_trace (world m') = (w_trace (world m) ++ log_open (node m))%list
           /\ stdoutFile (node m') = stdoutFile (node m)
       | None =>
           (exists post,
              w_trace (world m') =
                (w_trace (world m) ++ log_open (node m)
                 ++ OpOpen (redirect_path IsAbs Join (step (node m))) :: post)%list)
           /\ stdoutFile (node m') =
                match w_fail (world m)
                        (OpOpen (redirect_path IsAbs Join (step (node m)))) with
                | Some _ => None
                | None => Some (NamedFile (redirect_path IsAbs Join (step (node m))))
                end
       end.
Proof.
  destruct m as [n w]. destruct n as [s st i c cf lf lw sf sw ow or sc d].
  destruct st as [status l t1 t2 rc t3 dc e].
  destruct s as [name dir com args cwa scr out outp vars].
  simpl. intros Hout.
  substeps_unfold. substeps_cases IsAbs w; simpl in *; simplify_eq;
    try impossible;
    eexists _, _; (split; [reflexivity|]); simpl;
    repeat split; try reflexivity;
    eexists; rewrite <- ?app_assoc; simpl; reflexivity.
Qed.

(** C8.  For a step with a stdout-redirect path, the redirect file is
    opened or created at that path when it is absolute, and at the path
    joined under the step's [Dir] otherwise: by [setupStdout] on any node,
    and by [setup] as soon as the log sub-step before it has not failed
    (when that fails, [setup] returns its error and leaves the redirect
    file alone). *)
Theorem setup_opens_redirect (Join : string -> string -> string)
    (IsAbs : string -> bool) (safe : ascii -> bool)
    (logDir requestId : string) (m : Machine) :
  Stdout (step (node m)) <> "" ->
  let path :=
    if IsAbs (Stdout (step (node m))) then Stdout (step (node m))
    else Join (Dir (step (node m))) (Stdout (step (node m))) in
  let log := Join logDir (log_name safe (node m) (w_now (world m)) requestId) in
  (exists m1,
     setupStdout Join IsAbs m = Ok (w_fail (world m) (OpOpen path)) m1
     /\ w_trace (world m1) = (w_trace (world m) ++ [OpOpen path])%list
     /\ stdoutFile (node m1) =
          match w_fail (world m) (OpOpen path) with
          | Some _ => None
          | None => Some (NamedFile path)
          end)
  /\ exists r m',
       setup Join IsAbs safe logDir requestId m = Ok r m'
       /\ match (if bool_decide (log = "") then None
                 else w_fail (world m) (OpOpen log)) with
          | Some e =>
              r = Some e
              /\ w_trace (world m') = (w_trace (world m) ++ [OpOpen log])%list
              /\ stdoutFile (node m') = stdoutFile (node m)
          | None =>
              (exists post,
                 w_trace (world m') =
                   (w_trace (world m)
                    ++ (if bool_decide (log = "") then [] else [OpOpen log])
                    ++ OpOpen path :: post)%list)
              /\ stdoutFile (node m') =
                   match w_fail (world m) (OpOpen path) with
                   | Some _ => None
                   | None => Some (NamedFile path)
                   end
          end.
Proof.
  intros Hout path log. split.
  - subst path. destruct m as [n w]. simpl in *.
    unfold setupStdout, OpenOrCreateFile. go_unfold_goal. simpl.
    destruct (bool_decide_reflect (Stdout (step n) <> "")); [|contradiction].
    destruct (IsAbs (Stdout (step n))); simpl;
      match goal with
      | |- context [w_fail w ?o] => destruct (w_fail w o)
      end; simpl; eexists; repeat split; reflexivity.
  - rewrite setup_stamps.
    destruct (substeps_redirect Join IsAbs
                (stamped Join safe logDir requestId m) Hout)
      as (r & m' & Hr & H).
    exists r, m'. split; [exact Hr|].
    unfold log_open in H. simpl in H. fold log in H.
    destruct (bool_decide (log = "")); [exact H|].
    destruct (w_fail (world m) (OpOpen log)); exact H.
Qed.

Lemma setup_opens_redirect_witness :
  Stdout (step (node example_machine)) <> ""
  /\ exists m1,
       setupStdout Join_plain IsAbs_plain example_machine = Ok None m1
       /\ w_trace (world m1) = [OpOpen "/work/out.txt"]
       /\ stdoutFile (node m1) = Some (NamedFile "/work/out.txt").
Proof.
  assert (H : Stdout (step (node example_machine)) <> "") by discriminate.
  split; [exact H|].
  exact (proj1 (setup_opens_redirect Join_plain IsAbs_plain example_safe
                  "/logs" "0123456789abcdef" example_machine H)).
Defined.

(** When the log file cannot be created, the sub-steps stop there: the
    error is returned and recorded, and nothing else is attempted. *)
Lemma substeps_stop_at_log_error (Join : string -> string -> string)
    (IsAbs : string -> bool) (m : Machine) (e : error) :
  Log (state (node m)) <> "" ->
  w_fail (world m) (OpOpen (Log (state (node m)))) = Some e ->
  exists m',
    run_setup [setupLog; setupStdout Join IsAbs; setupScript] m = Ok (Some e) m'
    /\ Error (state (node m')) = Some e
    /\ w_trace (world m') = (w_trace (world m) ++ [OpOpen (Log (state (node m)))])%list
    /\ stdoutFile (node m') = stdoutFile (node m)
    /\ scriptFile (node m') = scriptFile (node m).
Proof.
  destruct m as [n w]. destruct n as [s st i c cf lf lw sf sw ow or sc d].
  destruct st as [status l t1 t2 rc t3 dc e0].
  simpl. intros Hl He.
  substeps_unfold.
  destruct (bool_decide_reflect (l = "")); [contradiction|].
  simpl. rewrite He. simpl. eexists. repeat split; reflexivity.
Qed.

(** When the redirect file cannot be created, the sub-steps stop there:
    the error is returned and recorded, and the script is not set up. *)
Lemma substeps_stop_at_redirect_error (Join : string -> string -> string)
    (IsAbs : string -> bool) (m : Machine) (e : error) :
  Stdout (step (node m)) <> "" ->
  (if bool_decide (Log (state (node m)) = "") then None
   else w_fail (world m) (OpOpen (Log (state (node m))))) = None ->
  w_fail (world m) (OpOpen (redirect_path IsAbs Join (step (node m)))) = Some e ->
  exists m',
    run_setup [setupLog; setupStdout Join IsAbs; setupScript] m = Ok (Some e) m'
    /\ Error (state (node m')) = Some e
    /\ scriptFile (node m') = scriptFile (node m)
    /\ w_trace (world m') =
         (w_trace (world m) ++ log_open (node m)
          ++ [OpOpen (redirect_path IsAbs Join (step (node m)))])%list.
Proof.
  destruct m as [n w]. destruct n as [s st i c cf lf lw sf sw ow or sc d].
  destruct st as [status l t1 t2 rc t3 dc e0].
  destruct s as [name dir com args cwa scr out outp vars].
  simpl. intros Hout Hl He. revert Hl He.
  substeps_unfold. substeps_cases IsAbs w; intros; simpl in *; simplify_eq;
    try impossible;
    eexists; repeat split; simpl; rewrite <- ?app_assoc; reflexivity.
Qed.

(** When the script file cannot be created, the error of [os.CreateTemp]
    is dropped; the write that follows finds a nil file, and it is its
    [ErrInvalid] that the sub-steps return and record. *)
Lemma substeps_script_creation_error (Join : string -> string -> string)
    (IsAbs : string -> bool) (m : Machine) (e : error) :
  Script (step (node m)) <> "" ->
  Stdout (step (node m)) = "" ->
  (if bool_decide (Log (state (node m)) = "") then None
   else w_fail (world m) (OpOpen (Log (state (node m))))) = None ->
  w_fail (world m) (OpCreateTemp (Dir (step (node m))) "dagu_script-") = Some e ->
  exists m',
    run_setup [setupLog; setupStdout Join IsAbs; setupScript] m
      = Ok (Some ErrInvalid) m'
    /\ Error (state (node m')) = Some ErrInvalid
    /\ scriptFile (node m') = None
    /\ w_trace (world m') =
         (w_trace (world m) ++ log_open (node m)
          ++ [OpCreateTemp (Dir (step (node m))) "dagu_script-"])%list.
Proof.
  destruct m as [n w]. destruct n as [s st i c cf lf lw sf sw ow or sc d].
  destruct st as [status l t1 t2 rc t3 dc e0].
  destruct s as [name dir com args cwa scr out outp vars].
  simpl. intros Hscr -> Hl He. revert Hl He.
  substeps_unfold. substeps_cases IsAbs w; intros; simpl in *; simplify_eq;
    try impossible;
    eexists; repeat split; simpl; rewrite <- ?app_assoc; reflexivity.
Qed.

(** X2.  When the log file cannot be created, [setup] stops at that
    sub-step: it returns the creation error, records it in [Error], and
    attempts nothing else (no redirect file, no script file). *)
Theorem setup_stops_at_log_error (Join : string -> string -> string)
    (IsAbs : string -> bool) (safe : ascii -> bool)
    (logDir requestId : string) (m : Machine) (e : error) :
  Join logDir (log_name safe (node m) (w_now (world m)) requestId) <> "" ->
  w_fail (world m)
    (OpOpen (Join logDir (log_name safe (node m) (w_now (world m)) requestId)))
    = Some e ->
  exists m',
    setup Join IsAbs safe logDir requestId m = Ok (Some e) m'
    /\ Error (state (node m')) = Some e
    /\ w_trace (world m') =
         (w_trace (world m)
          ++ [OpOpen (Join logDir
                        (log_name safe (node m) (w_now (world m)) requestId))])%list
    /\ stdoutFile (node m') = stdoutFile (node m)
    /\ scriptFile (node m') = scriptFile (node m).
Proof.
  intros Hl He. rewrite setup_stamps.
  exact (substeps_stop_at_log_error Join IsAbs
           (stamped Join safe logDir requestId m) e Hl He).
Qed.

Lemma setup_stops_at_log_error_witness :
  exists m',
    setup Join_plain IsAbs_plain example_safe "/logs" "0123456789abcdef"
      unwritable_log_dir = Ok (Some (Errno "open" EACCES)) m'
    /\ Error (state (node m')) = Some (Errno "open" EACCES)
    /\ w_trace (world m') =
         [OpOpen "/logs/my_step_1.20220805.13:04:59.123.01234567.log"]
    /\ stdoutFile (node m') = None
    /\ scriptFile (node m') = None.
Proof.
  refine (setup_stops_at_log_error Join_plain IsAbs_plain example_safe "/logs"
            "0123456789abcdef" unwritable_log_dir (Errno "open" EACCES) _ _).
  - discriminate.
  - reflexivity.
Defined.

(** X3.  When the log sub-step has not failed and the redirect file cannot
    be created, [setup] stops at the redirect sub-step: it returns the
    creation error, records it in [Error], and does not set up the
    script. *)
Theorem setup_stops_at_redirect_error (Join : string -> string -> string)
    (IsAbs : string -> bool) (safe : ascii -> bool)
    (logDir requestId : string) (m : Machine) (e : error) :
  Stdout (step (node m)) <> "" ->
  (if bool_decide
        (Join logDir (log_name safe (node m) (w_now (world m)) requestId) = "")
   then None
   else w_fail (world m)
          (OpOpen (Join logDir
                     (log_name safe (node m) (w_now (world m)) requestId))))
    = None ->
  w_fail (world m) (OpOpen (redirect_path IsAbs Join (step (node m)))) = Some e ->
  exists m',
    setup Join IsAbs safe logDir requestId m = Ok (Some e) m'
    /\ Error (state (node m')) = Some e
    /\ scriptFile (node m') = scriptFile (node m)
    /\ last (w_trace (world m'))
       = Some (OpOpen (redirect_path IsAbs Join (step (node m)))).
Proof.
  intros Hout Hl He. rewrite setup_stamps.
  destruct (substeps_stop_at_redirect_error Join IsAbs
              (stamped Join safe logDir requestId m) e Hout Hl He)
    as (m' & Hr & Herr & Hsc & Htr).
  exists m'. repeat split; try assumption.
  rewrite Htr, !app_assoc. apply last_snoc.
Qed.

Lemma setup_stops_at_redirect_error_witness :
  exists m',
    setup Join_plain IsAbs_plain example_safe "/logs" "0123456789abcdef"
      unwritable_redirect = Ok (Some (Errno "open" EACCES)) m'
    /\ Error (state (node m')) = Some (Errno "open" EACCES)
    /\ scriptFile (node m') = None
    /\ last (w_trace (world m')) = Some (OpOpen "/work/out.txt").
Proof.
  refine (setup_stops_at_redirect_error Join_plain IsAbs_plain example_safe
            "/logs" "0123456789abcdef" unwritable_redirect
            (Errno "open" EACCES) _ _ _).
  - discriminate.
  - reflexivity.
  - reflexivity.
Defined.

(** C7, at the failing input.  The step has a script and its directory
    cannot be written to: [os.CreateTemp] fails with EACCES.  [setup] stops
    and returns an error that it records in [Error], but the error is
    [ErrInvalid] and not the creation error. *)
Theorem setup_loses_script_creation_error :
  w_fail (world unwritable_script_dir) (OpCreateTemp "/work" "dagu_script-")
    = Some (Errno "open" EACCES)
  /\ exists m',
       setup Join_plain IsAbs_plain example_safe "/logs" "0123456789abcdef"
         unwritable_script_dir = Ok (Some ErrInvalid) m'
       /\ Error (state (node m')) = Some ErrInvalid
       /\ scriptFile (node m') = None
       /\ last (w_trace (world m')) = Some (OpCreateTemp "/work" "dagu_script-").
Proof.
  split; [reflexivity|].
  eexists. split; [vm_compute; reflexivity|].
  repeat split; reflexivity.
Qed.

(** *** Execute *)

Lemma append_nil_l (s : string) : "" ++ s = s.
Proof. reflexivity. Qed.

(** Everything [Execute] does once the run has returned, on any node and
    system. *)
Lemma Execute_summary (TrimSpace : string -> string)
    (SplitCommand : string -> string * list string) (m : Machine) :
  let c := built_command SplitCommand m in
  exists m',
    Execute TrimSpace SplitCommand m
      = Ok (match pipe_error m with
            | Some e => Some e
            | None => w_fail (world m) (OpRun c)
            end) m'
    /\ w_trace (world m') = (w_trace (world m) ++ Execute_ops m c)%list
    /\ same_oracles (world m) (world m')
    /\ Error (state (node m')) =
         match pipe_error m with
         | Some _ => Error (state (node m))
         | None => w_fail (world m) (OpRun c)
         end
    /\ cmd (node m') =
         Some (match pipe_error m with
               | Some _ => c
               | None => with_Process c (Build_Process <$> c_pid (w_child (world m) c))
               end)
    /\ w_env (world m') =
         (if bool_decide (Output (step (node m)) <> "") then
            match w_fail (world m) OpPipe with
            | Some _ => w_env (world m)
            | None => env_after_capture TrimSpace SplitCommand m
            end
          else w_env (world m))
    /\ (Status (state (node m')) = Status (state (node m))
        /\ done (node m') = done (node m)
        /\ logFile (node m') = logFile (node m)
        /\ logWriter (node m') = logWriter (node m)
        /\ stdoutFile (node m') = stdoutFile (node m)
        /\ stdoutWriter (node m') = stdoutWriter (node m)
        /\ scriptFile (node m') = scriptFile (node m))
    /\ cancelFunc (node m') = Some cancel_of_background
    /\ outputReader (node m') =
         (if bool_decide (Output (step (node m)) <> "") then
            match w_fail (world m) OpPipe with
            | Some _ => None
            | None => Some (PipeReader (w_next (world m)))
            end
          else outputReader (node m))
    /\ step (node m')
       = resolved_step SplitCommand (w_env (world m)) (step (node m))
    /\ (Output (step (node m)) <> "" -> w_fail (world m) OpPipe = None ->
        w_pipes (world m') !! w_next (world m) = Some "").
Proof.
  destruct m as [n w]. destruct n as [s st i c cf lf lw sf sw ow or sc d].
  destruct s as [name dir com args cwa scr out outp vars].
  unfold env_after_capture, captured.
  unfold built_command, child_args, pipe_error, Execute_ops, stdout_sinks,
    stderr_sinks, same_oracles, resolved_step.
  destruct lw as [lw|], sw as [sw|], sc as [sc|];
    execute_unfold;
    (destruct (bool_decide_reflect (cwa <> "")) as [Hc|Hc];
     [destruct (SplitCommand (ExpandEnv (w_env w) cwa)) as [c0 a0]|]);
    simpl;
    (destruct (bool_decide_reflect (outp <> "")) as [Ho|Ho]; simpl;
     [destruct (w_fail w OpPipe) as [e|] eqn:Hp; simpl|]);
    repeat first
      [ rewrite lookup_insert_eq
      | rewrite (bool_decide_true (outp <> "")) by assumption
      | rewrite (bool_decide_false (outp <> "")) by assumption
      | rewrite (bool_decide_true (Some _ <> None)) by discriminate
      | rewrite andb_false_r
      | rewrite append_nil_l
      | progress simpl ];
    try (destruct (setenv_accepts outp _) eqn:Hs;
         repeat first
           [ rewrite lookup_insert_eq
           | rewrite (bool_decide_true (outp <> "")) by assumption
           | progress simpl ]);
    rewrite ?app_nil_r;
    eexists; (split; [reflexivity|]); simpl;
    rewrite <- ?app_assoc, ?lookup_insert_eq; simpl;
    repeat split; try reflexivity; try discriminate; try contradiction;
    rewrite Hs; reflexivity.
Qed.

(** [Execute] returns in the model; this names what it leaves. *)
Lemma Execute_returned (TrimSpace : string -> string)
    (SplitCommand : string -> string * list string) (m : Machine)
    (r : option error) (m' : Machine) :
  Execute TrimSpace SplitCommand m = Ok r m' ->
  let c := built_command SplitCommand m in
  r = match pipe_error m with
      | Some e => Some e
      | None => w_fail (world m) (OpRun c)
      end
  /\ w_trace (world m') = (w_trace (world m) ++ Execute_ops m c)%list
  /\ same_oracles (world m) (world m')
  /\ Error (state (node m')) =
       match pipe_error m with
       | Some _ => Error (state (node m))
       | None => w_fail (world m) (OpRun c)
       end
  /\ cmd (node m') =
       Some (match pipe_error m with
             | Some _ => c
             | None => with_Process c (Build_Process <$> c_pid (w_child (world m) c))
             end)
  /\ w_env (world m') =
       (if bool_decide (Output (step (node m)) <> "") then
          match w_fail (world m) OpPipe with
          | Some _ => w_env (world m)
          | None => env_after_capture TrimSpace SplitCommand m
          end
        else w_env (world m))
  /\ (Status (state (node m')) = Status (state (node m))
      /\ done (node m') = done (node m)
      /\ logFile (node m') = logFile (node m)
      /\ logWriter (node m') = logWriter (node m)
      /\ stdoutFile (node m') = stdoutFile (node m)
      /\ stdoutWriter (node m') = stdoutWriter (node m)
      /\ scriptFile (node m') = scriptFile (node m))
  /\ cancelFunc (node m') = Some cancel_of_background
  /\ outputReader (node m') =
       (if bool_decide (Output (step (node m)) <> "") then
          match w_fail (world m) OpPipe with
          | Some _ => None
          | None => Some (PipeReader (w_next (world m)))
          end
        else outputReader (node m))
  /\ step (node m')
     = resolved_step SplitCommand (w_env (world m)) (step (node m))
  /\ (Output (step (node m)) <> "" -> w_fail (world m) OpPipe = None ->
      w_pipes (world m') !! w_next (world m) = Some "").
Proof.
  intros He c.
  destruct (Execute_summary TrimSpace SplitCommand m) as (m2 & H2 & Hrest).
  fold c in H2, Hrest. rewrite H2 in He. injection He as <- <-.
  split; [reflexivity|exact Hrest].
Qed.

(** The arguments of the command [Execute] builds. *)
Lemma built_command_args (SplitCommand : string -> string * list string)
    (m : Machine) :
  let s := resolved_step SplitCommand (w_env (world m)) (step (node m)) in
  cmd_Args (built_command SplitCommand m)
    = Command s :: child_args s (scriptFile (node m)).
Proof. reflexivity. Qed.

Lemma with_Process_args (c : Cmd) (p : option Process) :
  cmd_Args (with_Process c p) = cmd_Args c.
Proof. reflexivity. Qed.

(** The command a returned [Execute] leaves in the node has the arguments
    of [built_command], whatever happened to the pipe and the child. *)
Lemma Execute_command (TrimSpace : string -> string)
    (SplitCommand : string -> string * list string) (m : Machine)
    (r : option error) (m' : Machine) :
  Execute TrimSpace SplitCommand m = Ok r m' ->
  step (node m') = resolved_step SplitCommand (w_env (world m)) (step (node m))
  /\ exists c,
       cmd (node m') = Some c
       /\ cmd_Args c =
            Command (step (node m'))
            :: child_args (step (node m')) (scriptFile (node m)).
Proof.
  intros He.
  destruct (Execute_returned _ _ _ _ _ He)
    as (_ & _ & _ & _ & Hc & _ & _ & _ & _ & Hs & _).
  split; [exact Hs|]. eexists. split; [exact Hc|].
  rewrite Hs. destruct (pipe_error m); reflexivity.
Qed.

(** C6, as amended.  Whenever [Execute] returns, the child's argument
    list, after the program name, is the [Args] of the step as [Execute]
    runs it, followed by the path of the script file when the node has
    one, and exactly those [Args] when it has none.  The [Args] of the
    step as [Execute] runs it are the declared ones when [CmdWithArgs] is
    empty, and the ones split from the expanded [CmdWithArgs] otherwise. *)
Theorem Execute_appends_script (TrimSpace : string -> string)
    (SplitCommand : string -> string * list string) (m : Machine)
    (r : option error) (m' : Machine) :
  Execute TrimSpace SplitCommand m = Ok r m' ->
  exists c,
    cmd (node m') = Some c
    /\ cmd_Args c =
         Command (step (node m'))
         :: match scriptFile (node m) with
            | Some f => (Args (step (node m')) ++ [File_Name f])%list
            | None => Args (step (node m'))
            end
    /\ Args (step (node m')) =
         if bool_decide (CmdWithArgs (step (node m)) = "")
         then Args (step (node m))
         else (SplitCommand
                 (ExpandEnv (w_env (world m)) (CmdWithArgs (step (node m))))).2.
Proof.
  intros He.
  destruct (Execute_command _ _ _ _ _ He) as (Hs & c & Hc & Ha).
  exists c. split; [exact Hc|]. split.
  - rewrite Ha. unfold child_args.
    destruct (scriptFile (node m)); [reflexivity|].
    rewrite app_nil_r. reflexivity.
  - rewrite Hs. unfold resolved_step.
    destruct (bool_decide_reflect (CmdWithArgs (step (node m)) = ""))
      as [Heq|Hne].
    + rewrite bool_decide_false by (intros H; exact (H Heq)). reflexivity.
    + rewrite bool_decide_true by exact Hne.
      destruct (SplitCommand _); reflexivity.
Qed.

Lemma Execute_appends_script_witness :
  exists r m',
    Execute TrimSpace_ascii SplitCommand_words example_after_setup = Ok r m'
    /\ exists c,
         cmd (node m') = Some c
         /\ cmd_Args c = ["bash"; "-e"; "/work/dagu_script-123456"]
         /\ Args (step (node m')) = ["-e"].
Proof.
  eexists _, _. split; [vm_compute; reflexivity|].
  refine (Execute_appends_script TrimSpace_ascii SplitCommand_words
            example_after_setup _ _ _).
  vm_compute. reflexivity.
Defined.

(** C6, as stated, fails.  Two steps have the same [CmdWithArgs] and
    different declared [Args]; whatever [utils.SplitCommand] is, their
    children get the same arguments, the ones split from the expanded
    string, so one of them at least does not get its declared [Args]. *)
Lemma Execute_args_not_declared :
  ~ exists SplitCommand,
      appends_to_declared_args TrimSpace_ascii SplitCommand
        (options_machine ["$OPTS"])
      /\ appends_to_declared_args TrimSpace_ascii SplitCommand
           (options_machine ["-e"; "-x"]).
Proof.
  intros (S & H1 & H2).
  destruct (Execute_summary TrimSpace_ascii S (options_machine ["$OPTS"]))
    as (m1 & He1 & _ & _ & _ & Hc1 & _).
  destruct (Execute_summary TrimSpace_ascii S (options_machine ["-e"; "-x"]))
    as (m2 & He2 & _ & _ & _ & Hc2 & _).
  destruct (H1 _ _ He1) as (c1 & Hc1' & Ha1).
  destruct (H2 _ _ He2) as (c2 & Hc2' & Ha2).
  rewrite Hc1 in Hc1'. rewrite Hc2 in Hc2'.
  injection Hc1' as <-. injection Hc2' as <-.
  cbv [pipe_error options_machine options_step fresh_node node step Output
       bool_decide decide_rel] in Ha1, Ha2.
  simpl in Ha1, Ha2.
  unfold built_command, resolved_step, child_args in Ha1, Ha2.
  simpl in Ha1, Ha2.
  destruct (S _) as [c0 a0]. simpl in Ha1, Ha2.
  rewrite Ha1 in Ha2. discriminate Ha2.
Qed.

(** Whatever the splitter, [Execute] hands it the string with the
    environment variables expanded, and runs what it gets back. *)
Lemma Execute_splits_expanded (TrimSpace : string -> string)
    (SplitCommand : string -> string * list string) (m : Machine)
    (r : option error) (m' : Machine) :
  CmdWithArgs (step (node m)) <> "" ->
  Execute TrimSpace SplitCommand m = Ok r m' ->
  (Command (step (node m')), Args (step (node m')))
    = SplitCommand (ExpandEnv (w_env (world m)) (CmdWithArgs (step (node m))))
  /\ exists c,
       cmd (node m') = Some c
       /\ cmd_Args c =
            Command (step (node m'))
            :: child_args (step (node m')) (scriptFile (node m)).
Proof.
  intros Hne He.
  destruct (Execute_command _ _ _ _ _ He) as (Hs & Hc).
  split; [|exact Hc].
  rewrite Hs. unfold resolved_step.
  rewrite bool_decide_true by exact Hne.
  destruct (SplitCommand _); reflexivity.
Qed.



(** When the pipe cannot be created, [Execute] returns that error at once. *)
Lemma Execute_pipe_error (TrimSpace : string -> string)
    (SplitCommand : string -> string * list string) (m : Machine) (e : error) :
  Output (step (node m)) <> "" ->
  w_fail (world m) OpPipe = Some e ->
  exists m',
    Execute TrimSpace SplitCommand m = Ok (Some e) m'
    /\ w_trace (world m') = (w_trace (world m) ++ [OpPipe])%list
    /\ Error (state (node m')) = Error (state (node m))
    /\ w_env (world m') = w_env (world m).
Proof.
  intros Hout Hpipe.
  destruct (Execute_summary TrimSpace SplitCommand m)
    as (m' & He & Ht & _ & Herr & _ & Henv & _).
  unfold pipe_error, Execute_ops in *.
  rewrite bool_decide_true, Hpipe in He, Ht, Herr, Henv by exact Hout.
  exists m'. repeat split; assumption.
Qed.

(** X4.  When the step has a capture variable and the pipe cannot be
    created, [Execute] returns the pipe error without running the child;
    the error is not recorded in [Error], and the environment is left as
    it was. *)
Theorem Execute_returns_pipe_error (TrimSpace : string -> string)
    (SplitCommand : string -> string * list string) (m : Machine) (e : error) :
  Output (step (node m)) <> "" ->
  w_fail (world m) OpPipe = Some e ->
  exists m',
    Execute TrimSpace SplitCommand m = Ok (Some e) m'
    /\ w_trace (world m') = (w_trace (world m) ++ [OpPipe])%list
    /\ Error (state (node m')) = Error (state (node m))
    /\ w_env (world m') = w_env (world m).
Proof. apply Execute_pipe_error. Qed.

Lemma Execute_returns_pipe_error_witness :
  exists m',
    Execute TrimSpace_ascii SplitCommand_words no_descriptors_left
      = Ok (Some (Errno "pipe" EMFILE)) m'
    /\ w_trace (world m') = [OpPipe]
    /\ Error (state (node m')) = None
    /\ w_env (world m') = ∅.
Proof.
  refine (Execute_returns_pipe_error TrimSpace_ascii SplitCommand_words
            no_descriptors_left (Errno "pipe" EMFILE) _ _).
  - discriminate.
  - reflexivity.
Defined.

(** What a returned [Execute] has captured, the pipe having been made. *)
Lemma Execute_capture (TrimSpace : string -> string)
    (SplitCommand : string -> string * list string) (m : Machine)
    (r : option error) (m' : Machine) :
  Output (step (node m)) <> "" ->
  w_fail (world m) OpPipe = None ->
  Execute TrimSpace SplitCommand m = Ok r m' ->
  let c := built_command SplitCommand m in
  r = w_fail (world m) (OpRun c)
  /\ Error (state (node m')) = r
  /\ In (OpRun c) (w_trace (world m'))
  /\ In (ToFile (PipeWriter (w_next (world m)))) (cmd_Stdout c)
  /\ w_pipes (world m') !! w_next (world m) = Some ""
  /\ w_env (world m') = env_after_capture TrimSpace SplitCommand m
  /\ (setenv_accepts (Output (step (node m)))
        (captured TrimSpace SplitCommand m) = true ->
      w_env (world m') !! Output (step (node m))
        = Some (captured TrimSpace SplitCommand m)).
Proof.
  intros Hout Hpipe He c.
  destruct (Execute_returned _ _ _ _ _ He)
    as (Hr & Ht & _ & Herr & _ & Henv & _ & _ & _ & _ & Hp).
  fold c in Hr, Ht, Herr. unfold pipe_error, Execute_ops in *.
  rewrite bool_decide_true, Hpipe in Hr, Ht, Herr, Henv by exact Hout.
  repeat split.
  - exact Hr.
  - rewrite Herr, Hr. reflexivity.
  - rewrite Ht. apply in_or_app. right. right. left. reflexivity.
  - unfold c, built_command. cbn [cmd_Stdout].
    rewrite bool_decide_true, Hpipe by exact Hout.
    apply in_or_app. right. left. reflexivity.
  - exact (Hp Hout Hpipe).
  - exact Henv.
  - intros Hacc. rewrite Henv. unfold env_after_capture.
    rewrite Hacc. apply lookup_insert_eq.
Qed.

(** C2, as amended.  The step has a capture variable and [Execute]
    returns nil: the run has returned, the child having exited normally,
    which needs the output to fit in the pipe and no nil writer to be
    wired.  Then the bytes the child wrote to its stdout were drained from
    the pipe, the pipe being left empty, and [Execute] has handed their
    whitespace-trimmed form to [os.Setenv] under the variable: it sits in
    the environment when the name and the value are ones [os.Setenv]
    accepts, and the environment is as it was when they are not. *)
Theorem Execute_captures_stdout (TrimSpace : string -> string)
    (SplitCommand : string -> string * list string) (m m' : Machine) :
  Output (step (node m)) <> "" ->
  undisturbed SplitCommand m ->
  Execute TrimSpace SplitCommand m = Ok None m' ->
  let c := built_command SplitCommand m in
  In (OpRun c) (w_trace (world m'))
  /\ w_fail (world m) (OpRun c) = None
  /\ In (ToFile (PipeWriter (w_next (world m)))) (cmd_Stdout c)
  /\ w_pipes (world m') !! w_next (world m) = Some ""
  /\ w_env (world m') = env_after_capture TrimSpace SplitCommand m
  /\ (setenv_accepts (Output (step (node m)))
        (captured TrimSpace SplitCommand m) = true ->
      w_env (world m') !! Output (step (node m))
        = Some (captured TrimSpace SplitCommand m)).
Proof.
  intros Hout _ He c.
  destruct (w_fail (world m) OpPipe) as [e|] eqn:Hpipe.
  - destruct (Execute_pipe_error TrimSpace SplitCommand m e Hout Hpipe)
      as (m2 & He2 & _).
    rewrite He2 in He. discriminate He.
  - destruct (Execute_capture _ _ _ _ _ Hout Hpipe He)
      as (Hr & _ & Hin & Hsink & Hp & Henv & Hacc).
    repeat split; try assumption. symmetry. exact Hr.
Qed.

Lemma Execute_captures_stdout_witness :
  exists m',
    Execute TrimSpace_ascii SplitCommand_words example_machine = Ok None m'
    /\ In (OpRun (built_command SplitCommand_words example_machine))
         (w_trace (world m'))
    /\ w_fail (world example_machine)
         (OpRun (built_command SplitCommand_words example_machine)) = None
    /\ In (ToFile (PipeWriter 0))
         (cmd_Stdout (built_command SplitCommand_words example_machine))
    /\ w_pipes (world m') !! 0 = Some ""
    /\ w_env (world m') = {[ "RESULT" := "hello" ]}
    /\ (true = true -> w_env (world m') !! "RESULT" = Some "hello").
Proof.
  eexists. split; [vm_compute; reflexivity|].
  refine (Execute_captures_stdout TrimSpace_ascii SplitCommand_words
            example_machine _ _ _ _).
  - discriminate.
  - split; [reflexivity|]. intros _. vm_compute. discriminate.
  - vm_compute. reflexivity.
Defined.

(** C2, as stated, fails: the child exits normally after it has printed a
    NUL byte; [os.Setenv] refuses the value, [Execute] drops that error and
    returns nil, and the variable is not in the environment. *)
Lemma Execute_loses_binary_output :
  ~ stores_output_on_normal_exit TrimSpace_ascii SplitCommand_words
      binary_output.
Proof.
  intros H.
  destruct (H ltac:(discriminate) eq_refl ltac:(discriminate) eq_refl)
    as (m' & He & Henv).
  vm_compute in He. injection He as <-.
  vm_compute in Henv. discriminate Henv.
Qed.

(** C10, as amended.  With a capture variable and the pipe in place,
    whenever the run returns, [Execute] hands the trimmed captured stdout
    to [os.Setenv] whatever the run's end: the result it returns is the
    error of the run, nil or not, which it has stored in [Error], and in
    every case the environment holds the captured bytes under the variable
    when the name and the value are ones [os.Setenv] accepts, and is as it
    was when they are not. *)
Theorem Execute_captures_on_every_exit (TrimSpace : string -> string)
    (SplitCommand : string -> string * list string) (m : Machine)
    (r : option error) (m' : Machine) :
  Output (step (node m)) <> "" ->
  w_fail (world m) OpPipe = None ->
  undisturbed SplitCommand m ->
  Execute TrimSpace SplitCommand m = Ok r m' ->
  let c := built_command SplitCommand m in
  r = w_fail (world m) (OpRun c)
  /\ Error (state (node m')) = r
  /\ In (OpRun c) (w_trace (world m'))
  /\ w_env (world m') = env_after_capture TrimSpace SplitCommand m
  /\ (setenv_accepts (Output (step (node m)))
        (captured TrimSpace SplitCommand m) = true ->
      w_env (world m') !! Output (step (node m))
        = Some (captured TrimSpace SplitCommand m)).
Proof.
  intros Hout Hpipe _ He c.
  destruct (Execute_capture _ _ _ _ _ Hout Hpipe He)
    as (Hr & Herr & Hin & _ & _ & Henv & Hacc).
  repeat split; assumption.
Qed.

Lemma Execute_captures_on_every_exit_witness :
  exists m',
    Execute TrimSpace_ascii SplitCommand_words failing_child_machine
      = Ok (Some (ExitError 1)) m'
    /\ Some (ExitError 1)
       = w_fail (world failing_child_machine)
           (OpRun (built_command SplitCommand_words failing_child_machine))
    /\ Error (state (node m')) = Some (ExitError 1)
    /\ In (OpRun (built_command SplitCommand_words failing_child_machine))
         (w_trace (world m'))
    /\ w_env (world m') = {[ "RESULT" := "hello" ]}
    /\ (true = true -> w_env (world m') !! "RESULT" = Some "hello").
Proof.
  eexists. split; [vm_compute; reflexivity|].
  refine (Execute_captures_on_every_exit TrimSpace_ascii SplitCommand_words
            failing_child_machine _ _ _ _ _ _).
  - discriminate.
  - reflexivity.
  - split; [reflexivity|]. intros _. vm_compute. discriminate.
  - vm_compute. reflexivity.
Defined.

(** C10, as stated, fails: the capture variable has a name with ['='] in
    it and the child exits with status 1; [os.Setenv] refuses the name and
    nothing is written to the environment. *)
Lemma Execute_loses_misnamed_output :
  ~ stores_output_on_every_exit TrimSpace_ascii SplitCommand_words
      misnamed_output.
Proof.
  intros H.
  destruct (H ltac:(discriminate) eq_refl) as (r & m' & He & Henv).
  vm_compute in He. injection He as _ <-.
  vm_compute in Henv. discriminate Henv.
Qed.

(** ** Further properties *)

(** *** Sequences of methods *)

Lemma bind_Ok {A B : Type} (c : Go A) (f : A -> Go B) (m m1 : Machine) (a : A) :
  c m = Ok a m1 -> (c ≫= f) m = f a m1.
Proof. intros H. unfold mbind, Go_bind. rewrite H. reflexivity. Qed.

Lemma bind_Panic {A B : Type} (c : Go A) (f : A -> Go B) (m m1 : Machine) :
  c m = Panic m1 -> (c ≫= f) m = Panic m1.
Proof. intros H. unfold mbind, Go_bind. rewrite H. reflexivity. Qed.

(** *** The effects of setup *)

Lemma substeps_effects (Join : string -> string -> string)
    (IsAbs : string -> bool) (m : Machine) :
  exists r m' ops,
    run_setup [setupLog; setupStdout Join IsAbs; setupScript] m = Ok r m'
    /\ w_trace (world m') = (w_trace (world m) ++ ops)%list
    /\ Forall (fun o => setup_op o = true) ops
    /\ same_but_trace (world m) (world m')
    /\ Error (state (node m')) =
         match r with Some e => Some e | None => Error (state (node m)) end
    /\ Status (state (node m')) = Status (state (node m))
    /\ done (node m') = done (node m)
    /\ cmd (node m') = cmd (node m)
    /\ outputReader (node m') = outputReader (node m)
    /\ implb (named_handle (logFile (node m)))
             (named_handle (logFile (node m'))) = true
    /\ implb (named_handle (stdoutFile (node m)))
             (named_handle (stdoutFile (node m'))) = true.
Proof.
  destruct m as [n w]. destruct n as [s st i c cf lf lw sf sw ow or sc d].
  destruct st as [status l t1 t2 rc t3 dc e].
  destruct s as [name dir com args cwa scr out outp vars].
  substeps_unfold. substeps_cases IsAbs w; simpl in *; simplify_eq;
    try impossible;
    eexists _, _, _; (split; [reflexivity|]);
    (split; [solve_trace|]);
    (split; [repeat constructor|]);
    (split; [repeat split|]);
    simpl; repeat split;
    try reflexivity;
    try (destruct lf as [[]|]; reflexivity);
    try (destruct sf as [[]|]; reflexivity).
Qed.

(** What [setup] does on any node and system. *)
Lemma setup_summary (Join : string -> string -> string)
    (IsAbs : string -> bool) (safe : ascii -> bool)
    (logDir requestId : string) (m : Machine) :
  exists r m' ops,
    setup Join IsAbs safe logDir requestId m = Ok r m'
    /\ w_trace (world m') = (w_trace (world m) ++ ops)%list
    /\ Forall (fun o => setup_op o = true) ops
    /\ same_but_trace (world m) (world m')
    /\ Error (state (node m')) =
         match r with Some e => Some e | None => Error (state (node m)) end
    /\ Status (state (node m')) = Status (state (node m))
    /\ done (node m') = done (node m)
    /\ cmd (node m') = cmd (node m)
    /\ step (node m') = step (node m)
    /\ outputReader (node m') = outputReader (node m)
    /\ implb (named_handle (logFile (node m)))
             (named_handle (logFile (node m'))) = true
    /\ implb (named_handle (stdoutFile (node m)))
             (named_handle (stdoutFile (node m'))) = true.
Proof.
  rewrite setup_stamps.
  destruct (substeps_effects Join IsAbs (stamped Join safe logDir requestId m))
    as (r & m' & ops & Hr & Ht & Hops & Hw & He & Hs & Hd & Hc & Ho & Hl & Hf).
  destruct (substeps_keep Join IsAbs (stamped Join safe logDir requestId m))
    as (r2 & m2 & Hr2 & _ & _ & Hstep).
  rewrite Hr in Hr2. injection Hr2 as <- <-.
  exists r, m', ops. repeat split; try assumption; apply Hw.
Qed.

(** X5.  [setup] always returns.  When it fails it records the error it
    returns in [Error]; when it succeeds it leaves [Error] as it was.  All
    it asks of the system is to open and create files and to write, sync
    and close named files; the status, the [done] flag, the command, the
    step, the environment and the pipes are left alone. *)
Theorem setup_effects (Join : string -> string -> string)
    (IsAbs : string -> bool) (safe : ascii -> bool)
    (logDir requestId : string) (m : Machine) :
  exists r m' ops,
    setup Join IsAbs safe logDir requestId m = Ok r m'
    /\ w_trace (world m') = (w_trace (world m) ++ ops)%list
    /\ Forall (fun o => setup_op o = true) ops
    /\ same_but_trace (world m) (world m')
    /\ Error (state (node m')) =
         match r with Some e => Some e | None => Error (state (node m)) end
    /\ Status (state (node m')) = Status (state (node m))
    /\ done (node m') = done (node m)
    /\ cmd (node m') = cmd (node m)
    /\ step (node m') = step (node m).
Proof.
  destruct (setup_summary Join IsAbs safe logDir requestId m)
    as (r & m' & ops & H1 & H2 & H3 & H4 & H5 & H6 & H7 & H8 & H9 & _).
  exists r, m', ops. repeat split; try assumption; apply H4.
Qed.

(** What the script sub-step does once the log and redirect sub-steps
    have not failed and the temporary file has been created. *)
Lemma substeps_script (Join : string -> string -> string)
    (IsAbs : string -> bool) (m : Machine) :
  Script (step (node m)) <> "" ->
  (if bool_decide (Log (state (node m)) = "") then None
   else w_fail (world m) (OpOpen (Log (state (node m))))) = None ->
  (if bool_decide (Stdout (step (node m)) <> "")
   then w_fail (world m) (OpOpen (redirect_path IsAbs Join (step (node m))))
   else None) = None ->
  w_fail (world m) (OpCreateTemp (Dir (step (node m))) "dagu_script-") = None ->
  let tmp := NamedFile (w_temp (world m) (Dir (step (node m))) "dagu_script-") in
  let written := w_fail (world m) (OpWriteString tmp (Script (step (node m)))) in
  exists m',
    run_setup [setupLog; setupStdout Join IsAbs; setupScript] m
      = Ok (match written with
            | Some e => Some e
            | None => w_fail (world m) (OpSync tmp)
            end) m'
    /\ scriptFile (node m') = Some tmp
    /\ done (node m') = done (node m)
    /\ w_trace (world m') =
         (w_trace (world m) ++ log_open (node m)
          ++ redirect_open IsAbs Join (step (node m))
          ++ OpCreateTemp (Dir (step (node m))) "dagu_script-"
          :: OpWriteString tmp (Script (step (node m)))
          :: match written with
             | Some _ => []
             | None => [OpSync tmp; OpClose tmp]
             end)%list.
Proof.
  destruct m as [n w]. destruct n as [s st i c cf lf lw sf sw ow or sc d].
  destruct st as [status l t1 t2 rc t3 dc e].
  destruct s as [name dir com args cwa scr out outp vars].
  simpl. intros Hscr Hl Hr Hc.
  unfold redirect_open, log_open, redirect_path in *. simpl in Hr.
  substeps_unfold.
  destruct (bool_decide_reflect (l = "")) as [->|Hne];
    destruct (bool_decide_reflect (out <> "")) as [Hout|Hout];
    destruct (IsAbs out) eqn:Habs;
    repeat first
      [ rewrite (bool_decide_true (scr <> "")) by exact Hscr
      | rewrite (bool_decide_true (out <> "")) by exact Hout
      | rewrite (bool_decide_false (out <> "")) by exact Hout
      | rewrite Hl | rewrite Hr | rewrite Hc | rewrite Habs
      | progress simpl ];
    (destruct (w_fail w (OpWriteString _ scr)); simpl;
     [|destruct (w_fail w (OpSync _)); simpl]);
    eexists; (split; [reflexivity|]); simpl; repeat split;
    rewrite <- ?app_assoc; reflexivity.
Qed.

(** The handles and the operations of sub-steps that have all returned
    nil. *)
Lemma substeps_success (Join : string -> string -> string)
    (IsAbs : string -> bool) (m m' : Machine) :
  run_setup [setupLog; setupStdout Join IsAbs; setupScript] m = Ok None m' ->
  opened IsAbs Join (Log (state (node m))) m (node m')
  /\ w_trace (world m') =
       (w_trace (world m) ++ log_open (node m)
        ++ redirect_open IsAbs Join (step (node m)) ++ script_ops m)%list.
Proof.
  destruct m as [n w]. destruct n as [s st i c cf lf lw sf sw ow or sc d].
  destruct st as [status l t1 t2 rc t3 dc e].
  destruct s as [name dir com args cwa scr out outp vars].
  unfold opened, redirect_open, script_ops, script_file.
  substeps_unfold. substeps_cases IsAbs w; simpl in *;
    intros H; simplify_eq; try impossible;
    simpl; rewrite <- ?app_assoc, ?app_nil_r; simpl;
    repeat split; reflexivity.
Qed.

(** X6.  Once [setup] has created the temporary script file (the log and
    redirect sub-steps have not failed and [os.CreateTemp] succeeded),
    the [teardown] that follows removes that file, and the removal is the
    last thing it does: this holds whether or not writing or syncing the
    script failed in between. *)
Theorem setup_script_removed_by_teardown (Join : string -> string -> string)
    (IsAbs : string -> bool) (safe : ascii -> bool)
    (logDir requestId : string) (m : Machine) :
  done (node m) = false ->
  Script (step (node m)) <> "" ->
  (if bool_decide
        (Join logDir (log_name safe (node m) (w_now (world m)) requestId) = "")
   then None
   else w_fail (world m)
          (OpOpen (Join logDir
                     (log_name safe (node m) (w_now (world m)) requestId))))
    = None ->
  (if bool_decide (Stdout (step (node m)) <> "")
   then w_fail (world m) (OpOpen (redirect_path IsAbs Join (step (node m))))
   else None) = None ->
  w_fail (world m) (OpCreateTemp (Dir (step (node m))) "dagu_script-") = None ->
  exists r m',
    (setup Join IsAbs safe logDir requestId;; teardown) m = Ok r m'
    /\ done (node m') = true
    /\ last (w_trace (world m'))
       = Some (OpRemove (w_temp (world m) (Dir (step (node m))) "dagu_script-")).
Proof.
  intros Hd Hscr Hl Hr Hc.
  destruct (substeps_script Join IsAbs (stamped Join safe logDir requestId m)
              Hscr Hl Hr Hc) as (m1 & H1 & Hsf & Hd1 & _).
  simpl in Hd1. rewrite Hd in Hd1.
  destruct (teardown_first_call m1 Hd1) as (m2 & H2 & Hd2 & _ & Htr).
  eexists _, m2. split.
  - rewrite <- setup_stamps in H1. erewrite bind_Ok by exact H1. exact H2.
  - split; [exact Hd2|].
    rewrite Htr. unfold teardown_ops. rewrite Hsf. simpl.
    rewrite !app_assoc. apply last_snoc.
Qed.

Lemma setup_script_removed_by_teardown_witness :
  exists r m',
    (setup Join_plain IsAbs_plain example_safe "/logs" "0123456789abcdef";;
     teardown) example_machine = Ok r m'
    /\ done (node m') = true
    /\ last (w_trace (world m')) = Some (OpRemove "/work/dagu_script-123456").
Proof.
  refine (setup_script_removed_by_teardown Join_plain IsAbs_plain example_safe
            "/logs" "0123456789abcdef" example_machine _ _ _ _ _);
    try reflexivity; discriminate.
Defined.

(** X7.  When the temporary script file has been created and writing the
    script into it fails, [setup] returns the write error and records it
    in [Error]; the file stays in [scriptFile], and [setup] neither syncs
    nor closes it: the failed write is its last operation. *)
Theorem setup_script_write_error (Join : string -> string -> string)
    (IsAbs : string -> bool) (safe : ascii -> bool)
    (logDir requestId : string) (m : Machine) (e : error) :
  Script (step (node m)) <> "" ->
  (if bool_decide
        (Join logDir (log_name safe (node m) (w_now (world m)) requestId) = "")
   then None
   else w_fail (world m)
          (OpOpen (Join logDir
                     (log_name safe (node m) (w_now (world m)) requestId))))
    = None ->
  (if bool_decide (Stdout (step (node m)) <> "")
   then w_fail (world m) (OpOpen (redirect_path IsAbs Join (step (node m))))
   else None) = None ->
  w_fail (world m) (OpCreateTemp (Dir (step (node m))) "dagu_script-") = None ->
  w_fail (world m)
    (OpWriteString
       (NamedFile (w_temp (world m) (Dir (step (node m))) "dagu_script-"))
       (Script (step (node m)))) = Some e ->
  exists m',
    setup Join IsAbs safe logDir requestId m = Ok (Some e) m'
    /\ Error (state (node m')) = Some e
    /\ scriptFile (node m')
       = Some (NamedFile (w_temp (world m) (Dir (step (node m))) "dagu_script-"))
    /\ w_trace (world m') =
         (w_trace (world m)
          ++ log_open (node (stamped Join safe logDir requestId m))
          ++ redirect_open IsAbs Join (step (node m))
          ++ [OpCreateTemp (Dir (step (node m))) "dagu_script-";
              OpWriteString
                (NamedFile (w_temp (world m) (Dir (step (node m))) "dagu_script-"))
                (Script (step (node m)))])%list.
Proof.
  intros Hscr Hl Hr Hc Hw.
  destruct (substeps_script Join IsAbs (stamped Join safe logDir requestId m)
              Hscr Hl Hr Hc) as (m1 & H1 & Hsf & _ & Htr).
  cbn -[run_setup setupLog setupStdout setupScript log_open] in H1, Hsf, Htr.
  rewrite Hw in H1, Htr.
  destruct (substeps_effects Join IsAbs (stamped Join safe logDir requestId m))
    as (r2 & m2 & ops & H2 & _ & _ & _ & He & _).
  rewrite H1 in H2. injection H2 as <- <-.
  exists m1. rewrite setup_stamps. repeat split; assumption.
Qed.

Lemma setup_script_write_error_witness :
  exists m',
    setup Join_plain IsAbs_plain example_safe "/logs" "0123456789abcdef"
      full_disk = Ok (Some (Errno "write" ENOSPC)) m'
    /\ Error (state (node m')) = Some (Errno "write" ENOSPC)
    /\ scriptFile (node m') = Some (NamedFile "/work/dagu_script-123456")
    /\ w_trace (world m') =
         [OpOpen "/logs/my_step_1.20220805.13:04:59.123.01234567.log";
          OpOpen "/work/out.txt";
          OpCreateTemp "/work" "dagu_script-";
          OpWriteString (NamedFile "/work/dagu_script-123456") "echo hi"].
Proof.
  refine (setup_script_write_error Join_plain IsAbs_plain example_safe
            "/logs" "0123456789abcdef" full_disk (Errno "write" ENOSPC)
            _ _ _ _ _);
    try reflexivity; discriminate.
Defined.

(** X8.  When [setup] returns nil, every handle the step asks for is open:
    the log file and its writer at the log path, the redirect file and its
    writer at the redirect path when the step has [Stdout], and the
    temporary script file when the step has [Script]; the handles the step
    does not ask for are as before.  The operations are the opens, then
    creating, writing, syncing and closing the script file, and [Error] is
    left as it was. *)
Theorem setup_success_opens_handles (Join : string -> string -> string)
    (IsAbs : string -> bool) (safe : ascii -> bool)
    (logDir requestId : string) (m m' : Machine) :
  setup Join IsAbs safe logDir requestId m = Ok None m' ->
  let log := Join logDir (log_name safe (node m) (w_now (world m)) requestId) in
  Log (state (node m')) = log
  /\ opened IsAbs Join log m (node m')
  /\ Error (state (node m')) = Error (state (node m))
  /\ w_trace (world m') =
       (w_trace (world m)
        ++ (if bool_decide (log = "") then [] else [OpOpen log])
        ++ redirect_open IsAbs Join (step (node m)) ++ script_ops m)%list.
Proof.
  intros H log.
  destruct (setup_sets_log Join IsAbs safe logDir requestId m)
    as (r1 & m1 & H1 & _ & Hlog & _).
  rewrite H in H1. injection H1 as <- <-.
  destruct (setup_summary Join IsAbs safe logDir requestId m)
    as (r2 & m2 & ops & H2 & _ & _ & _ & He & _).
  rewrite H in H2. injection H2 as <- <-.
  rewrite setup_stamps in H.
  destruct (substeps_success Join IsAbs _ _ H) as (Ho & Ht).
  repeat split; try assumption; apply Ho.
Qed.

Lemma setup_success_opens_handles_witness :
  Log (state (node example_after_setup))
    = "/logs/my_step_1.20220805.13:04:59.123.01234567.log"
  /\ opened IsAbs_plain Join_plain
       "/logs/my_step_1.20220805.13:04:59.123.01234567.log" example_machine
       (node example_after_setup)
  /\ Error (state (node example_after_setup)) = None
  /\ w_trace (world example_after_setup) =
       [OpOpen "/logs/my_step_1.20220805.13:04:59.123.01234567.log";
        OpOpen "/work/out.txt";
        OpCreateTemp "/work" "dagu_script-";
        OpWriteString (NamedFile "/work/dagu_script-123456") "echo hi";
        OpSync (NamedFile "/work/dagu_script-123456");
        OpClose (NamedFile "/work/dagu_script-123456")].
Proof.
  exact (setup_success_opens_handles Join_plain IsAbs_plain example_safe
           "/logs" "0123456789abcdef" example_machine example_after_setup
           eq_refl).
Defined.

(** *** Execute, and what follows it *)

(** X9.  What [Execute] has done when it returns, the run having been
    undisturbed.  Unless [os.Pipe] failed it has run exactly one child; it
    returns the error of the run and has stored it in [Error], a nil
    result clearing the error that was there; when a capture pipe was made
    it has closed the write end after the run.  The status, the [done]
    flag and the handles of [setup] are as they were, and the environment
    is as it was but for the capture variable. *)
Theorem Execute_effects (TrimSpace : string -> string)
    (SplitCommand : string -> string * list string) (m : Machine)
    (r : option error) (m' : Machine) :
  undisturbed SplitCommand m ->
  Execute TrimSpace SplitCommand m = Ok r m' ->
  let c := built_command SplitCommand m in
  r = match pipe_error m with
      | Some e => Some e
      | None => w_fail (world m) (OpRun c)
      end
  /\ w_trace (world m') = (w_trace (world m) ++ Execute_ops m c)%list
  /\ same_oracles (world m) (world m')
  /\ Error (state (node m')) =
       match pipe_error m with
       | Some _ => Error (state (node m))
       | None => r
       end
  /\ (forall k, k <> Output (step (node m)) ->
      w_env (world m') !! k = w_env (world m) !! k)
  /\ (Status (state (node m')) = Status (state (node m))
      /\ done (node m') = done (node m)
      /\ logFile (node m') = logFile (node m)
      /\ logWriter (node m') = logWriter (node m)
      /\ stdoutFile (node m') = stdoutFile (node m)
      /\ stdoutWriter (node m') = stdoutWriter (node m)
      /\ scriptFile (node m') = scriptFile (node m)).
Proof.
  intros _ He c.
  destruct (Execute_returned _ _ _ _ _ He)
    as (Hr & Ht & Ho & Herr & _ & Henv & Hframe & _).
  fold c in Hr, Ht, Herr.
  split; [exact Hr|]. split; [exact Ht|]. split; [exact Ho|]. split.
  { rewrite Herr, Hr. destruct (pipe_error m); reflexivity. }
  split; [|exact Hframe].
  intros k Hk. rewrite Henv. unfold env_after_capture.
  destruct (bool_decide (Output (step (node m)) <> "")); [|reflexivity].
  destruct (w_fail (world m) OpPipe); [reflexivity|].
  destruct (setenv_accepts _ _); [|reflexivity].
  apply lookup_insert_ne. congruence.
Qed.

Lemma Execute_effects_witness :
  Execute TrimSpace_ascii SplitCommand_words example_after_setup
    = Ok None example_after_Execute
  /\ w_trace (world example_after_Execute) =
       (w_trace (world example_after_setup)
        ++ [OpPipe;
            OpRun (built_command SplitCommand_words example_after_setup);
            OpClose (PipeWriter 0)])%list
  /\ Error (state (node example_after_Execute)) = None
  /\ w_env (world example_after_Execute) !! "HOME" = None
  /\ done (node example_after_Execute) = false.
Proof.
  assert (He : Execute TrimSpace_ascii SplitCommand_words example_after_setup
               = Ok None example_after_Execute) by (vm_compute; reflexivity).
  assert (Hu : undisturbed SplitCommand_words example_after_setup).
  { split; [discriminate|]. intros _. vm_compute. discriminate. }
  destruct (Execute_effects TrimSpace_ascii SplitCommand_words
              example_after_setup None example_after_Execute Hu He)
    as (_ & Ht & _ & Herr & Henv & _ & Hd & _).
  split; [exact He|]. split; [exact Ht|]. split; [exact Herr|].
  split; [exact (Henv "HOME" ltac:(discriminate))|exact Hd].
Defined.

(** X10.  The child of an [Execute] that has returned, the run having
    been undisturbed, was put in a process group of its own ([Setpgid]
    with [Pgid] 0), in the directory of the step, with the step's
    variables as its environment entries.  Its stderr went to the log
    writer, or to the process's stdout when the node has no log writer,
    and never to the capture pipe.  Its stdout went to the log writer,
    then to the redirect writer if the node has one, or to the process's
    stdout when the node has neither, and then to the capture pipe if the
    step has [Output]; no nil writer was wired. *)
Theorem Execute_child_wiring (TrimSpace : string -> string)
    (SplitCommand : string -> string * list string) (m : Machine)
    (r : option error) (m' : Machine) :
  undisturbed SplitCommand m ->
  Execute TrimSpace SplitCommand m = Ok r m' ->
  exists ops,
    w_trace (world m') = (w_trace (world m) ++ ops)%list
    /\ forall c, In (OpRun c) ops ->
         cmd_Setpgid c = true /\ cmd_Pgid c = 0%Z
         /\ cmd_Dir c = Dir (step (node m))
         /\ cmd_Env c = Variables (step (node m))
         /\ cmd_Stderr c = stderr_sinks (node m)
         /\ (forall p, ~ In (ToFile (PipeWriter p)) (cmd_Stderr c))
         /\ cmd_Stdout c =
              (stdout_sinks (node m)
               ++ if bool_decide (Output (step (node m)) <> "")
                  then [ToFile (PipeWriter (w_next (world m)))] else [])%list
         /\ ~ In (ToWriter None) (cmd_Stdout c)
         /\ ~ In (ToWriter None) (cmd_Stderr c).
Proof.
  intros [Hw _] He.
  destruct (Execute_returned _ _ _ _ _ He) as (_ & Ht & _).
  eexists. split; [exact Ht|].
  intros c Hin.
  assert (Hc : c = built_command SplitCommand m
               /\ pipe_error m = None).
  { unfold Execute_ops, pipe_error in *.
    destruct (bool_decide (Output (step (node m)) <> ""));
      [destruct (w_fail (world m) OpPipe)|]; simpl in Hin;
      intuition congruence. }
  destruct Hc as [-> Hp]. unfold pipe_error in Hp.
  unfold built_command, resolved_step, stderr_sinks, stdout_sinks. simpl.
  repeat split.
  - destruct (bool_decide (CmdWithArgs (step (node m)) <> ""));
      [destruct (SplitCommand _)|]; reflexivity.
  - destruct (bool_decide (CmdWithArgs (step (node m)) <> ""));
      [destruct (SplitCommand _)|]; reflexivity.
  - intros p. destruct (logWriter (node m)); simpl;
      intros [H|[]]; discriminate H.
  - destruct (bool_decide (Output (step (node m)) <> "")); [|reflexivity].
    rewrite Hp. reflexivity.
  - destruct (logWriter (node m)) as [lw|] eqn:Hlw.
    + destruct (stdoutWriter (node m));
        destruct (bool_decide (Output (step (node m)) <> ""));
        try destruct (w_fail (world m) OpPipe); simpl;
        intuition discriminate.
    + rewrite (Hw eq_refl).
      destruct (bool_decide (Output (step (node m)) <> ""));
        try destruct (w_fail (world m) OpPipe); simpl;
        intuition discriminate.
  - destruct (logWriter (node m)); simpl; intuition discriminate.
Qed.

Lemma Execute_child_wiring_witness :
  exists ops,
    w_trace (world example_after_Execute)
      = (w_trace (world example_after_setup) ++ ops)%list
    /\ forall c, In (OpRun c) ops ->
         cmd_Setpgid c = true /\ cmd_Pgid c = 0%Z
         /\ cmd_Dir c = Dir (step (node example_after_setup))
         /\ cmd_Env c = Variables (step (node example_after_setup))
         /\ cmd_Stderr c = stderr_sinks (node example_after_setup)
         /\ (forall p, ~ In (ToFile (PipeWriter p)) (cmd_Stderr c))
         /\ cmd_Stdout c =
              (stdout_sinks (node example_after_setup)
               ++ if bool_decide (Output (step (node example_after_setup)) <> "")
                  then [ToFile (PipeWriter (w_next (world example_after_setup)))]
                  else [])%list
         /\ ~ In (ToWriter None) (cmd_Stdout c)
         /\ ~ In (ToWriter None) (cmd_Stderr c).
Proof.
  assert (He : Execute TrimSpace_ascii SplitCommand_words example_after_setup
               = Ok None example_after_Execute) by (vm_compute; reflexivity).
  assert (Hu : undisturbed SplitCommand_words example_after_setup).
  { split; [discriminate|]. intros _. vm_compute. discriminate. }
  exact (Execute_child_wiring TrimSpace_ascii SplitCommand_words
           example_after_setup None example_after_Execute Hu He).
Defined.

(** [signal] on a node that is Running and has a command. *)
Lemma signal_running (sig : Signal) (m : Machine) (c : Cmd) :
  Status (state (node m)) = NodeStatus_Running ->
  cmd (node m) = Some c ->
  signal sig m =
    match cmd_Process c with
    | Some p => Ok tt {| node := set_Status NodeStatus_Cancel (node m);
                         world := record_op (OpKill (- Pid p) sig) (world m) |}
    | None => Panic m
    end.
Proof.
  destruct m as [n w]. simpl. intros Hs Hc.
  unfold signal, syscall_Kill. go_unfold_goal. simpl.
  rewrite Hs, Hc. simpl. destruct (cmd_Process c); reflexivity.
Qed.

Lemma signal_not_running (sig : Signal) (m : Machine) :
  Status (state (node m)) <> NodeStatus_Running -> signal sig m = Ok tt m.
Proof.
  destruct m as [n w]. simpl. intros Hs.
  unfold signal. go_unfold_goal. simpl.
  rewrite bool_decide_false by exact Hs. reflexivity.
Qed.

(** X11.  A [signal] that comes after [Execute] has returned, on a node
    still marked Running: when the child had been started, the signal is
    sent to the process group of the child that has exited, and the status
    becomes Canceled; when [os.Pipe] had failed or the child could not be
    started, the command is there without a process and [signal] panics
    on the nil dereference. *)
Theorem Execute_then_signal (TrimSpace : string -> string)
    (SplitCommand : string -> string * list string) (sig : Signal)
    (m : Machine) :
  Status (state (node m)) = NodeStatus_Running ->
  exists r m1,
    Execute TrimSpace SplitCommand m = Ok r m1
    /\ match pipe_error m,
             c_pid (w_child (world m) (built_command SplitCommand m)) with
       | None, Some pid =>
           exists m2,
             signal sig m1 = Ok tt m2
             /\ w_trace (world m2) = (w_trace (world m1) ++ [OpKill (- pid) sig])%list
             /\ Status (state (node m2)) = NodeStatus_Cancel
       | _, _ => signal sig m1 = Panic m1
       end.
Proof.
  intros Hs.
  destruct (Execute_summary TrimSpace SplitCommand m)
    as (m1 & He & _ & _ & _ & Hc & _ & (Hst & _) & _).
  rewrite <- Hst in Hs.
  eexists _, m1. split; [exact He|].
  rewrite (signal_running sig m1 _ Hs Hc).
  destruct (pipe_error m); [reflexivity|].
  destruct (c_pid _); simpl; [|reflexivity].
  eexists. repeat split.
Qed.

Lemma Execute_then_signal_witness :
  exists r m1,
    Execute TrimSpace_ascii SplitCommand_words (running_plain example_world)
      = Ok r m1
    /\ exists m2,
         signal SIGTERM m1 = Ok tt m2
         /\ w_trace (world m2) = (w_trace (world m1) ++ [OpKill (- 4242) SIGTERM])%list
         /\ Status (state (node m2)) = NodeStatus_Cancel.
Proof.
  exact (Execute_then_signal TrimSpace_ascii SplitCommand_words SIGTERM
           (running_plain example_world) eq_refl).
Defined.

(** [cancel], and what may follow it. *)
Lemma cancel_summary (sig : Signal) (m : Machine) :
  exists m1,
    cancel m = Ok (cancelFunc (node m)) m1
    /\ world m1 = world m
    /\ Status (state (node m1)) =
         (if bool_decide (Status (state (node m)) = NodeStatus_Running)
          then NodeStatus_Cancel else Status (state (node m)))
    /\ signal sig m1 = Ok tt m1
    /\ cancel m1 = Ok (cancelFunc (node m)) m1.
Proof.
  destruct m as [n w]. destruct n as [st s i c cf lf lw sf sw ow or sc d].
  destruct s as [status l t1 t2 rc t3 dc e].
  unfold cancel, signal. go_unfold_goal. simpl.
  destruct status, cf; simpl; eexists; repeat split.
Qed.

(** X12.  [cancel] always returns.  It calls the cancel function
    whenever the node has one, whatever the status, and turns Running into
    Canceled, leaving every other status as it is.  After it the node is
    not Running: a [signal] that follows sends nothing and changes
    nothing, and a second [cancel] calls the same function again and
    leaves the node as it is.  What the cancel function does to a run
    that is under way is not part of this statement. *)
Theorem cancel_then_signal (sig : Signal) (m : Machine) :
  exists m1,
    cancel m = Ok (cancelFunc (node m)) m1
    /\ Status (state (node m1)) =
         (if bool_decide (Status (state (node m)) = NodeStatus_Running)
          then NodeStatus_Cancel else Status (state (node m)))
    /\ Status (state (node m1)) <> NodeStatus_Running
    /\ signal sig m1 = Ok tt m1
    /\ exists m2,
         cancel m1 = Ok (cancelFunc (node m)) m2 /\ node m2 = node m1.
Proof.
  destruct (cancel_summary sig m) as (m1 & Hc & _ & Hs & Hsig & Hc2).
  exists m1. split; [exact Hc|]. split; [exact Hs|]. split.
  - rewrite Hs. destruct (Status (state (node m))); simpl; discriminate.
  - split; [exact Hsig|]. exists m1. split; [exact Hc2|reflexivity].
Qed.

(** X13.  [Execute] installs a cancel function before anything else, so a
    [cancel] that follows it always fires one, also when [Execute] has
    returned the error of [os.Pipe] without running the child. *)
Theorem Execute_then_cancel (TrimSpace : string -> string)
    (SplitCommand : string -> string * list string) (m : Machine) :
  exists r m1 m2,
    Execute TrimSpace SplitCommand m = Ok r m1
    /\ cancel m1 = Ok (Some cancel_of_background) m2
    /\ world m2 = world m1.
Proof.
  destruct (Execute_summary TrimSpace SplitCommand m)
    as (m1 & He & _ & _ & _ & _ & _ & _ & Hcf & _).
  destruct (cancel_summary SIGKILL m1) as (m2 & Hc & Hw & _).
  rewrite Hcf in Hc.
  eexists _, m1, m2. repeat split; eassumption.
Qed.

(** *** A whole run: setup, Execute, teardown *)

(** X14.  The child of an [Execute] that has returned after a [setup]
    that returned nil, the run having been undisturbed.  Its arguments are
    those of the resolved step, followed by the name of the temporary file
    [setup] wrote the script to when the step has [Script].  Its stderr
    went to the writer of the log file [setup] opened; its stdout went to
    that writer, then to the writer of the redirect file when the step has
    [Stdout], then to the capture pipe when the step has [Output] and the
    pipe could be made. *)
Theorem setup_then_Execute (Join : string -> string -> string)
    (IsAbs : string -> bool) (safe : ascii -> bool)
    (TrimSpace : string -> string)
    (SplitCommand : string -> string * list string)
    (logDir requestId : string) (m m1 : Machine)
    (r : option error) (m2 : Machine) :
  setup Join IsAbs safe logDir requestId m = Ok None m1 ->
  let log := Join logDir (log_name safe (node m) (w_now (world m)) requestId) in
  log <> "" ->
  undisturbed SplitCommand m1 ->
  Execute TrimSpace SplitCommand m1 = Ok r m2 ->
  let s := resolved_step SplitCommand (w_env (world m)) (step (node m)) in
  let c := built_command SplitCommand m1 in
  w_trace (world m2) = (w_trace (world m1) ++ Execute_ops m1 c)%list
  /\ cmd_Args c =
       (Command s :: Args s
        ++ if bool_decide (Script (step (node m)) <> "")
           then [File_Name (script_file m)]
           else match scriptFile (node m) with
                | Some f => [File_Name f]
                | None => []
                end)%list
  /\ cmd_Stderr c = [ToWriter (Some (NewWriter (NamedFile log)))]
  /\ cmd_Stdout c =
       (ToWriter (Some (NewWriter (NamedFile log)))
        :: (if bool_decide (Stdout (step (node m)) <> "")
            then [ToWriter (Some (NewWriter
                    (NamedFile (redirect_path IsAbs Join (step (node m))))))]
            else match stdoutWriter (node m) with
                 | Some w => [ToWriter (Some w)]
                 | None => []
                 end)
        ++ if bool_decide (Output (step (node m)) <> "")
           then match w_fail (world m) OpPipe with
                | Some _ => []
                | None => [ToFile (PipeWriter (w_next (world m)))]
                end
           else [])%list.
Proof.
  intros H log Hlog _ He s c.
  destruct (setup_summary Join IsAbs safe logDir requestId m)
    as (r2 & m2' & ops & H2 & _ & _ & Hw & _ & _ & _ & _ & Hstep & _).
  rewrite H in H2. injection H2 as <- <-.
  destruct Hw as (Henv & _ & Hnext & _ & Hfail & _).
  rewrite setup_stamps in H.
  destruct (substeps_success Join IsAbs _ _ H)
    as ((Hlf & Hlw & Hsf & Hsw & Hsc) & _).
  cbn -[redirect_path script_file] in Hlf, Hlw, Hsf, Hsw, Hsc.
  fold log in Hlf, Hlw.
  rewrite (bool_decide_false (log = "")) in Hlw by exact Hlog.
  destruct (Execute_returned _ _ _ _ _ He) as (_ & Ht & _).
  split; [exact Ht|].
  subst c s. unfold built_command, child_args, stdout_sinks, stderr_sinks.
  cbn [cmd_Args cmd_Stderr cmd_Stdout].
  rewrite Hstep, Henv, Hnext, Hfail, Hlw, Hsw, Hsc.
  change (script_file (stamped Join safe logDir requestId m))
    with (script_file m).
  repeat split.
  - destruct (bool_decide (Script (step (node m)) <> "")); [reflexivity|].
    destruct (scriptFile (node m)); reflexivity.
  - destruct (bool_decide (Stdout (step (node m)) <> "")); [reflexivity|].
    destruct (stdoutWriter (node m)); reflexivity.
Qed.

Lemma setup_then_Execute_witness :
  w_trace (world example_after_Execute) =
    (w_trace (world example_after_setup)
     ++ Execute_ops example_after_setup
          (built_command SplitCommand_words example_after_setup))%list
  /\ cmd_Args (built_command SplitCommand_words example_after_setup)
     = ["bash"; "-e"; "/work/dagu_script-123456"]
  /\ cmd_Stderr (built_command SplitCommand_words example_after_setup)
     = [ToWriter (Some (NewWriter (NamedFile
          "/logs/my_step_1.20220805.13:04:59.123.01234567.log")))]
  /\ cmd_Stdout (built_command SplitCommand_words example_after_setup)
     = [ToWriter (Some (NewWriter (NamedFile
          "/logs/my_step_1.20220805.13:04:59.123.01234567.log")));
        ToWriter (Some (NewWriter (NamedFile "/work/out.txt")));
        ToFile (PipeWriter 0)].
Proof.
  assert (Hs : setup Join_plain IsAbs_plain example_safe "/logs"
                 "0123456789abcdef" example_machine = Ok None example_after_setup)
    by (vm_compute; reflexivity).
  assert (He : Execute TrimSpace_ascii SplitCommand_words example_after_setup
               = Ok None example_after_Execute) by (vm_compute; reflexivity).
  assert (Hu : undisturbed SplitCommand_words example_after_setup).
  { split; [discriminate|]. intros _. vm_compute. discriminate. }
  refine (setup_then_Execute Join_plain IsAbs_plain example_safe
            TrimSpace_ascii SplitCommand_words "/logs" "0123456789abcdef"
            example_machine example_after_setup None example_after_Execute
            Hs _ Hu He).
  discriminate.
Defined.

(** [teardown] on any node. *)
Lemma teardown_summary (m : Machine) :
  exists r m',
    teardown m = Ok r m'
    /\ done (node m') = true
    /\ w_trace (world m') =
         (w_trace (world m)
          ++ if done (node m) then [] else teardown_ops (node m))%list
    /\ outputReader (node m') = outputReader (node m).
Proof.
  destruct m as [n w]. destruct n as [st s i c cf lf lw sf sw ow or sc d].
  unfold teardown, teardown_ops, Writer_Flush, File_Sync, File_Close, os_Remove.
  go_unfold_goal. simpl.
  destruct d; simpl.
  - eexists _, _. rewrite app_nil_r. repeat split.
  - destruct lw as [lw|], sw as [sw|], lf as [lf|], sf as [sf|], sc as [sc|];
      simpl;
      repeat match goal with
             | |- context [w_fail w ?o] => destruct (w_fail w o)
             end;
      simpl; eexists _, _; repeat split; simpl;
      rewrite <- ?app_assoc; simpl; rewrite ?app_nil_r; reflexivity.
Qed.

(** X15.  Nothing resets [done].  Once [teardown] has run on a node,
    [clearState], [setup] and [Execute] may run again on it (a retry), and
    each returns; the [teardown] that follows them does nothing: it
    returns nil, flushes and closes none of the files the second [setup]
    opened, and does not remove the second script file. *)
Theorem teardown_after_rerun (Join : string -> string -> string)
    (IsAbs : string -> bool) (safe : ascii -> bool)
    (TrimSpace : string -> string)
    (SplitCommand : string -> string * list string)
    (logDir requestId : string) (m : Machine) :
  done (node m) = true ->
  exists m0 r1 m1 r2 m2,
    clearState m = Ok tt m0
    /\ setup Join IsAbs safe logDir requestId m0 = Ok r1 m1
    /\ Execute TrimSpace SplitCommand m1 = Ok r2 m2
    /\ teardown m2 = Ok None m2.
Proof.
  intros Hd.
  destruct (setup_summary Join IsAbs safe logDir requestId
              (machine_of (clearState m)))
    as (r1 & m1 & ops & H1 & _ & _ & _ & _ & _ & Hd1 & _).
  destruct (Execute_summary TrimSpace SplitCommand m1)
    as (m2 & H2 & _ & _ & _ & _ & _ & (_ & Hd2 & _) & _).
  eexists _, r1, m1, _, m2.
  split; [reflexivity|]. split; [exact H1|]. split; [exact H2|].
  apply teardown_done. rewrite Hd2, Hd1. exact Hd.
Qed.

Lemma teardown_after_rerun_witness :
  exists m0 r1 m1 r2 m2,
    clearState torn_down = Ok tt m0
    /\ setup Join_plain IsAbs_plain example_safe "/logs" "fedcba9876543210" m0
       = Ok r1 m1
    /\ Execute TrimSpace_ascii SplitCommand_words m1 = Ok r2 m2
    /\ teardown m2 = Ok None m2.
Proof.
  exact (teardown_after_rerun Join_plain IsAbs_plain example_safe
           TrimSpace_ascii SplitCommand_words "/logs" "fedcba9876543210"
           torn_down eq_refl).
Defined.

(** [teardown] closes the log and redirect files only. *)
Lemma teardown_ops_keep_reader (n : Node) :
  named_handle (logFile n) = true ->
  named_handle (stdoutFile n) = true ->
  Forall (fun o => closes_reader o = false) (teardown_ops n).
Proof.
  unfold teardown_ops.
  destruct (logWriter n), (stdoutWriter n), (logFile n) as [[]|],
    (stdoutFile n) as [[]|], (scriptFile n); simpl; intros H1 H2;
    try discriminate; repeat constructor.
Qed.

(** X16.  The read end of the capture pipe is never closed.  A step has
    [Output]; [setup] has run, the pipe could be made, and [Execute] and
    [teardown] have returned, the run having been undisturbed.  Then the
    node has the read end in [outputReader], [Execute] has closed the
    write end, and none of the operations of [setup], [Execute] and
    [teardown] closes the read end of a pipe: [teardown] closes the log
    and redirect files only. *)
Theorem capture_reader_never_closed (Join : string -> string -> string)
    (IsAbs : string -> bool) (safe : ascii -> bool)
    (TrimSpace : string -> string)
    (SplitCommand : string -> string * list string)
    (logDir requestId : string) (m m1 : Machine)
    (r1 r : option error) (m' : Machine) :
  Output (step (node m)) <> "" ->
  w_fail (world m) OpPipe = None ->
  named_handle (logFile (node m)) = true ->
  named_handle (stdoutFile (node m)) = true ->
  setup Join IsAbs safe logDir requestId m = Ok r1 m1 ->
  undisturbed SplitCommand m1 ->
  (Execute TrimSpace SplitCommand;; teardown) m1 = Ok r m' ->
  outputReader (node m') = Some (PipeReader (w_next (world m)))
  /\ exists ops,
       w_trace (world m') = (w_trace (world m) ++ ops)%list
       /\ In (OpClose (PipeWriter (w_next (world m)))) ops
       /\ Forall (fun o => closes_reader o = false) ops.
Proof.
  intros Hout Hpipe Hlf Hsf Hsetup _ Hrun.
  destruct (setup_summary Join IsAbs safe logDir requestId m)
    as (r1' & m1' & ops1 & H1 & Ht1 & Hops1 & Hw & _ & _ & _ & _ & Hstep & _
        & Hl1 & Hs1).
  rewrite Hsetup in H1. injection H1 as <- <-.
  rewrite Hlf in Hl1. rewrite Hsf in Hs1. simpl in Hl1, Hs1.
  destruct Hw as (_ & _ & Hnext & _ & Hfail & _).
  destruct (Execute_summary TrimSpace SplitCommand m1)
    as (m2 & H2 & Ht2 & _ & _ & _ & _ & (_ & _ & Hl2 & _ & Hs2 & _) & _ & Hor
        & _).
  destruct (teardown_summary m2) as (r3 & m3 & H3 & _ & Ht3 & Hor3).
  erewrite bind_Ok in Hrun by exact H2. rewrite H3 in Hrun.
  injection Hrun as <- <-.
  unfold Execute_ops in Ht2. rewrite Hstep, Hfail, Hpipe, Hnext in Ht2, Hor.
  rewrite bool_decide_true in Ht2, Hor by exact Hout.
  split; [rewrite Hor3; exact Hor|].
  eexists. split; [rewrite Ht3, Ht2, Ht1, <- !app_assoc; reflexivity|].
  split.
  - apply in_or_app. right. simpl. auto.
  - apply Forall_app. split.
    + eapply Forall_impl; [exact Hops1|].
      intros [] Ho; simpl in *; try discriminate; try reflexivity.
      destruct f; simpl in *; try discriminate; reflexivity.
    + apply Forall_app. split; [repeat constructor|].
      destruct (done (node m2)); [constructor|].
      apply teardown_ops_keep_reader; [rewrite Hl2|rewrite Hs2]; assumption.
Qed.

Lemma capture_reader_never_closed_witness :
  outputReader (node example_after_teardown) = Some (PipeReader 0)
  /\ exists ops,
       w_trace (world example_after_teardown) = ([] ++ ops)%list
       /\ In (OpClose (PipeWriter 0)) ops
       /\ Forall (fun o => closes_reader o = false) ops.
Proof.
  assert (Hs : setup Join_plain IsAbs_plain example_safe "/logs"
                 "0123456789abcdef" example_machine = Ok None example_after_setup)
    by (vm_compute; reflexivity).
  assert (He : (Execute TrimSpace_ascii SplitCommand_words;; teardown)
                 example_after_setup = Ok None example_after_teardown)
    by (vm_compute; reflexivity).
  assert (Hu : undisturbed SplitCommand_words example_after_setup).
  { split; [discriminate|]. intros _. vm_compute. discriminate. }
  refine (capture_reader_never_closed Join_plain IsAbs_plain example_safe
            TrimSpace_ascii SplitCommand_words "/logs" "0123456789abcdef"
            example_machine example_after_setup None None
            example_after_teardown _ _ _ _ Hs Hu He); try reflexivity.
  discriminate.
Defined.

(** *** Node ids and status names *)

Lemma init_all_cons (n : Node) (rest : list Node) (next : nat) :
  init_all (n :: rest) next =
    if bool_decide (node_id n <> 0)
    then (n :: (init_all rest next).1, (init_all rest next).2)
    else (set_node_id next n :: (init_all rest (S next)).1,
          (init_all rest (S next)).2).
Proof.
  simpl. unfold init.
  destruct (bool_decide (node_id n <> 0));
    [destruct (init_all rest next)|destruct (init_all rest (S next))];
    reflexivity.
Qed.

(** [init] on a list of nodes: the ids the nodes had are kept, the nodes
    without one get the values of the counter, and nothing below the
    counter is handed out. *)
Lemma init_all_fresh (ns : list Node) (next : nat) :
  1 <= next ->
  Forall (fun n => node_id n < next) ns ->
  NoDup (filter (fun i => i <> 0) (node_id <$> ns)) ->
  next <= (init_all ns next).2
  /\ Forall (fun n => 1 <= node_id n < (init_all ns next).2) (init_all ns next).1
  /\ NoDup (node_id <$> (init_all ns next).1)
  /\ (forall i, i ∈ node_id <$> (init_all ns next).1 -> i < next ->
        i ∈ filter (fun i => i <> 0) (node_id <$> ns))
  /\ Forall2 (fun n n' =>
        n' = if bool_decide (node_id n <> 0) then n
             else set_node_id (node_id n') n) ns (init_all ns next).1.
Proof.
  revert next. induction ns as [|n rest IH]; intros next Hnext Hbelow Hnd.
  - simpl. repeat split; try constructor; try lia.
    intros i Hi. inversion Hi.
  - rewrite init_all_cons.
    apply Forall_cons in Hbelow as [Hn Hrest].
    destruct (decide (node_id n <> 0)) as [Hid|Hid].
    + rewrite fmap_cons, filter_cons_True in Hnd by exact Hid.
      apply NoDup_cons in Hnd as [Hnotin Hnd].
      specialize (IH next Hnext Hrest Hnd).
      rewrite bool_decide_true by exact Hid.
      destruct (init_all rest next) as [rest' next'] eqn:E. cbn [fst snd] in *.
      destruct IH as (Hle & Hall & Hnd' & Hfresh & Hrel).
      repeat split; try assumption; try lia.
      * constructor; [lia|exact Hall].
      * rewrite fmap_cons. apply NoDup_cons. split; [|exact Hnd'].
        intros Hin. apply Hnotin, Hfresh; assumption.
      * intros i Hi Hlt. rewrite fmap_cons in Hi.
        rewrite fmap_cons, filter_cons_True by exact Hid.
        apply elem_of_cons in Hi as [->|Hi]; [left|right; auto].
      * constructor; [|exact Hrel].
        rewrite bool_decide_true by exact Hid. reflexivity.
    + assert (Hz : node_id n = 0) by lia.
      rewrite fmap_cons, filter_cons_False in Hnd by (intros H; exact (Hid H)).
      assert (Hrest' : Forall (fun n => node_id n < S next) rest).
      { eapply Forall_impl; [exact Hrest|]. simpl. intros; lia. }
      specialize (IH (S next) ltac:(lia) Hrest' Hnd).
      rewrite bool_decide_false by exact Hid.
      destruct (init_all rest (S next)) as [rest' next'] eqn:E. cbn [fst snd] in *.
      destruct IH as (Hle & Hall & Hnd' & Hfresh & Hrel).
      repeat split; try assumption; try lia.
      * constructor; [simpl; lia|exact Hall].
      * rewrite fmap_cons. simpl. apply NoDup_cons. split; [|exact Hnd'].
        intros Hin. apply Hfresh in Hin; [|lia].
        apply list_elem_of_filter in Hin as [_ Hin].
        apply list_elem_of_fmap in Hin as (x & Hx & Hin).
        rewrite Forall_forall in Hrest. specialize (Hrest x Hin). lia.
      * intros i Hi Hlt. rewrite fmap_cons in Hi. simpl in Hi.
        rewrite fmap_cons, filter_cons_False by (intros H; exact (Hid H)).
        apply elem_of_cons in Hi as [->|Hi]; [lia|].
        apply Hfresh; [exact Hi|lia].
      * constructor; [|exact Hrel].
        rewrite bool_decide_false by exact Hid. reflexivity.
Qed.

(** A node that has an id keeps it. *)
Lemma init_all_again (ns : list Node) (next : nat) :
  Forall (fun n => 1 <= node_id n) ns -> init_all ns next = (ns, next).
Proof.
  induction 1 as [|n rest Hn _ IH]; [reflexivity|].
  simpl. unfold init. rewrite bool_decide_true by lia. rewrite IH. reflexivity.
Qed.

(** X17.  [init] hands out ids that identify the nodes.  The counter
    starts at 1 and stays below the largest [int]; the ids the nodes
    already have are below the counter and differ from one another.  Then
    after [init] on every node of a list, every node has an id that is
    not 0, no two nodes share an id, a node that had an id has kept it and
    is unchanged, a node that had none differs from what it was in its id
    only, and a second [init] changes neither a node nor the counter. *)
Theorem init_gives_distinct_ids (ns : list Node) (nextNodeId : nat) :
  1 <= nextNodeId ->
  (Z.of_nat nextNodeId + Z.of_nat (length ns) < 2 ^ 63)%Z ->
  Forall (fun n => node_id n < nextNodeId) ns ->
  NoDup (filter (fun i => i <> 0) (node_id <$> ns)) ->
  let ns' := (init_all ns nextNodeId).1 in
  let next' := (init_all ns nextNodeId).2 in
  Forall (fun n => 1 <= node_id n < next') ns'
  /\ NoDup (node_id <$> ns')
  /\ Forall2 (fun n n' =>
        n' = if bool_decide (node_id n <> 0) then n
             else set_node_id (node_id n') n) ns ns'
  /\ init_all ns' next' = (ns', next').
Proof.
  intros Hnext _ Hbelow Hnd ns' next'.
  destruct (init_all_fresh ns nextNodeId Hnext Hbelow Hnd)
    as (_ & Hall & Hnd' & _ & Hrel).
  repeat split; try assumption.
  apply init_all_again. eapply Forall_impl; [exact Hall|].
  simpl. intros; lia.
Qed.

Lemma init_gives_distinct_ids_witness :
  Forall (fun n => 1 <= node_id n < 4) example_nodes_after_init
  /\ NoDup (node_id <$> example_nodes_after_init)
  /\ Forall2 (fun n n' =>
        n' = if bool_decide (node_id n <> 0) then n
             else set_node_id (node_id n') n)
       example_nodes example_nodes_after_init
  /\ init_all example_nodes_after_init 4 = (example_nodes_after_init, 4).
Proof.
  refine (init_gives_distinct_ids example_nodes 2 _ _ _ _).
  - lia.
  - simpl. lia.
  - repeat constructor.
  - vm_compute. repeat constructor; set_solver.
Defined.

(** X18.  The name [String] gives a status identifies it, but for
    "not started": each of "running", "failed", "canceled", "finished"
    and "skipped" is the name of its own status and of no other integer,
    and every integer that is none of these five, [NodeStatus_None]
    included, prints as "not started". *)
Theorem NodeStatus_String_names (z : Z) (s : NodeStatus) :
  NodeStatus_String z = NodeStatus_String (NodeStatus_value s)
  <-> (if bool_decide (s = NodeStatus_None) then (z < 1 \/ 5 < z)%Z
       else z = NodeStatus_value s).
Proof.
  unfold NodeStatus_String.
  destruct (Z.eqb_spec z 1) as [->|H1];
    [|destruct (Z.eqb_spec z 2) as [->|H2];
      [|destruct (Z.eqb_spec z 3) as [->|H3];
        [|destruct (Z.eqb_spec z 4) as [->|H4];
          [|destruct (Z.eqb_spec z 5) as [->|H5]]]]];
    destruct s; simpl; split; intros H;
    try discriminate H; try reflexivity; try lia.
Qed.

(** *** From one step to the next *)

Lemma append_cons (c : ascii) (s t : string) :
  String c s ++ t = String c (s ++ t).
Proof. reflexivity. Qed.

Lemma index_close_app (k t : string) (i : nat) :
  has_char "}" k = false ->
  index_close (k ++ "}" ++ t) i = Some (i + String.length k).
Proof.
  revert i. induction k as [|c k IH]; intros i H.
  - simpl. f_equal. lia.
  - cbn [has_char] in H. apply orb_false_elim in H as [Hc Hk].
    rewrite append_cons. cbn [index_close String.length].
    destruct (bool_decide_reflect (c = "}"%char)) as [->|Hne].
    + discriminate Hc.
    + rewrite (IH _ Hk). f_equal. lia.
Qed.

Lemma take_string_app (k t : string) :
  take_string (String.length k) (k ++ t) = k.
Proof.
  induction k as [|c k IH]; [destruct t; reflexivity|].
  rewrite append_cons. cbn [String.length take_string]. rewrite IH.
  reflexivity.
Qed.

Lemma drop_string_app_S (k t : string) (c : ascii) :
  drop_string (S (String.length k)) (k ++ String c t) = t.
Proof.
  induction k as [|d k IH]; [reflexivity|].
  rewrite append_cons. cbn [String.length drop_string]. exact IH.
Qed.

(** [getShellName] on a name in braces. *)
Lemma getShellName_braces (k t : string) :
  k <> "" -> has_char "}" k = false ->
  getShellName ("{" ++ k ++ "}" ++ t) = (k, S (S (String.length k))).
Proof.
  intros Hne Hk.
  change ("{" ++ k ++ "}" ++ t) with (String "{" (k ++ "}" ++ t)).
  cbn [getShellName].
  assert (Hidx : match index_close (k ++ "}" ++ t) 1 with
                 | Some i => if Nat.eqb i 1 then ("", 2)
                             else (take_string (i - 1) (k ++ "}" ++ t), S i)
                 | None => ("", 1)
                 end = (k, S (S (String.length k)))).
  { rewrite (index_close_app k t 1 Hk).
    destruct (Nat.eqb_spec (1 + String.length k) 1) as [He|_].
    - destruct k; [contradiction|simpl in He; lia].
    - replace (1 + String.length k - 1) with (String.length k) by lia.
      rewrite take_string_app. reflexivity. }
  destruct k as [|c [|d k]]; [contradiction| |].
  - change (String c "" ++ "}" ++ t) with (String c (String "}" t)) in *.
    destruct (isShellSpecialVar c); [reflexivity|exact Hidx].
  - change (String c (String d k) ++ "}" ++ t)
      with (String c (String d (k ++ "}" ++ t))) in *.
    cbn [has_char] in Hk.
    apply orb_false_elim in Hk as [_ Hk].
    apply orb_false_elim in Hk as [Hd _].
    destruct d as [[] [] [] [] [] [] [] []];
      try exact Hidx; discriminate Hd.
Qed.

(** Text without a ['$'] is copied, whatever fuel is left. *)
Lemma Expand_fuel_plain (mapping : string -> string) (fuel : nat) (s : string) :
  has_char "$" s = false -> Expand_fuel fuel s mapping = s.
Proof.
  revert s. induction fuel as [|fuel IH]; intros s H; [reflexivity|].
  destruct s as [|c s]; [reflexivity|].
  cbn [has_char] in H. apply orb_false_elim in H as [Hc Hs].
  cbn [Expand_fuel].
  destruct (bool_decide_reflect (c = "$"%char)) as [->|Hne].
  - discriminate Hc.
  - cbn [andb]. rewrite (IH _ Hs). reflexivity.
Qed.

(** [os.Expand] on a text with one reference [${k}]. *)
Lemma Expand_braces (mapping : string -> string) (pre k post : string) :
  k <> "" -> has_char "}" k = false ->
  has_char "$" pre = false -> has_char "$" post = false ->
  Expand (pre ++ "${" ++ k ++ "}" ++ post) mapping
    = pre ++ mapping k ++ post.
Proof.
  intros Hne Hk Hpre Hpost. unfold Expand.
  induction pre as [|c pre IH].
  - change ("" ++ "${" ++ k ++ "}" ++ post)
      with (String "$" ("{" ++ k ++ "}" ++ post)).
    change ("" ++ mapping k ++ post) with (mapping k ++ post).
    cbn [String.length Expand_fuel].
    rewrite bool_decide_true by reflexivity.
    rewrite (bool_decide_false (_ = "")) by discriminate.
    cbn [andb negb].
    rewrite (getShellName_braces k post Hne Hk).
    rewrite (bool_decide_false (k = "")) by exact Hne.
    rewrite (drop_string_app_S k post "}"
             : drop_string (S (S (String.length k))) ("{" ++ k ++ "}" ++ post)
               = post).
    rewrite (Expand_fuel_plain _ _ _ Hpost). reflexivity.
  - cbn [has_char] in Hpre. apply orb_false_elim in Hpre as [Hc Hpre].
    rewrite (append_cons c pre ("${" ++ k ++ "}" ++ post)).
    rewrite (append_cons c pre (mapping k ++ post)).
    cbn [String.length Expand_fuel].
    destruct (bool_decide_reflect (c = "$"%char)) as [->|Hc'].
    + discriminate Hc.
    + cbn [andb]. rewrite (IH Hpre). reflexivity.
Qed.

Lemma setenv_accepts_name (k v : string) :
  setenv_accepts k v = true -> k <> "".
Proof.
  unfold setenv_accepts. intros H Hk. subst k. discriminate H.
Qed.

(** X19.  What one step captures, a later step can use.  A step with a
    capture variable has run and [Execute] has returned, the pipe having
    been made and the run having been undisturbed; the name, without
    ['}'], and the trimmed output are ones [os.Setenv] accepts.  When the
    [Execute] of a step whose [CmdWithArgs] refers to the variable as
    [${NAME}], with no other ['$'] in it, returns in its turn, it has run
    the command split from the string in which the reference is replaced
    by the whitespace-trimmed stdout of the first child, whatever the
    error of the first run was. *)
Theorem captured_output_reaches_next_step (TrimSpace : string -> string)
    (SplitCommand : string -> string * list string)
    (m : Machine) (next : Node) (pre post : string)
    (r1 : option error) (m1 : Machine) (r2 : option error) (m2 : Machine) :
  has_char "}" (Output (step (node m))) = false ->
  w_fail (world m) OpPipe = None ->
  undisturbed SplitCommand m ->
  setenv_accepts (Output (step (node m)))
    (captured TrimSpace SplitCommand m) = true ->
  has_char "$" pre = false ->
  has_char "$" post = false ->
  CmdWithArgs (step next)
    = pre ++ "${" ++ Output (step (node m)) ++ "}" ++ post ->
  Execute TrimSpace SplitCommand m = Ok r1 m1 ->
  Execute TrimSpace SplitCommand {| node := next; world := world m1 |}
    = Ok r2 m2 ->
  (Command (step (node m2)), Args (step (node m2)))
    = SplitCommand (pre ++ captured TrimSpace SplitCommand m ++ post)
  /\ exists c,
       cmd (node m2) = Some c
       /\ cmd_Args c =
            Command (step (node m2))
            :: child_args (step (node m2)) (scriptFile next).
Proof.
  intros Hk Hpipe _ Hacc Hpre Hpost Hcwa H1 H2.
  pose proof (setenv_accepts_name _ _ Hacc) as Hout.
  destruct (Execute_capture _ _ _ _ _ Hout Hpipe H1)
    as (_ & _ & _ & _ & _ & _ & Henv).
  specialize (Henv Hacc).
  assert (Hne : CmdWithArgs (step (node {| node := next; world := world m1 |}))
                <> "").
  { simpl. rewrite Hcwa. clear. induction pre as [|c pre IH]; discriminate. }
  destruct (Execute_splits_expanded _ _ _ _ _ Hne H2) as (Hs & Hc).
  split; [|exact Hc].
  rewrite Hs. cbn [node world]. unfold ExpandEnv.
  rewrite Hcwa, (Expand_braces _ _ _ _ Hout Hk Hpre Hpost).
  unfold Getenv. rewrite Henv. reflexivity.
Qed.

Lemma captured_output_reaches_next_step_witness :
  exists r2 m2,
    Execute TrimSpace_ascii SplitCommand_words
      {| node := fresh_node consumer_step;
         world := world example_after_Execute |} = Ok r2 m2
    /\ (Command (step (node m2)), Args (step (node m2)))
       = ("echo", ["hello"; "done"])
    /\ exists c,
         cmd (node m2) = Some c
         /\ cmd_Args c = ["echo"; "hello"; "done"].
Proof.
  assert (He : Execute TrimSpace_ascii SplitCommand_words example_after_setup
               = Ok None example_after_Execute) by (vm_compute; reflexivity).
  assert (Hu : undisturbed SplitCommand_words example_after_setup).
  { split; [discriminate|]. intros _. vm_compute. discriminate. }
  eexists _, _. split; [vm_compute; reflexivity|].
  refine (captured_output_reaches_next_step TrimSpace_ascii SplitCommand_words
            example_after_setup (fresh_node consumer_step) "echo " " done"
            None example_after_Execute _ _ _ _ Hu _ _ _ _ He _);
    try reflexivity.
  vm_compute. reflexivity.
Defined.
